(** * NBA_AI: the incremental database updater

    A shallow embedding of [src/database_updater.py] and [src/on_load.py].
    The SQLite database is a record of tables, a table is the list of its
    rows in scan order, and a query is a filter over that list.  The
    collaborators imported from the other modules of the package are the
    methods of a class. *)

From Stdlib Require Import ZArith String.
From stdpp Require Import base decidable option list sorting gmap strings.

Set Warnings "-register-all".

Local Open Scope Z_scope.
Local Open Scope string_scope.
Local Open Scope list_scope.

(** ** Data model *)

(** A row of the [Games] table.  The two flags are SQLite integers: the
    queries compare them with [0], [1] and [False] (which SQLite reads as
    [0]); the text columns are compared with string literals.

    Modelled from the spec: the schema of [Games] is not in src; the data
    model gives every game each of these attributes, so no column is NULL. *)
Record Game := mkGame {
  game_id : string;
  date_time_est : string;
  home_team : string;
  away_team : string;
  status : string;
  season : string;
  season_type : string;
  pre_game_data_finalized : Z;
  game_data_finalized : Z
}.

(** A row of the [Predictions] table; the queries read two of its columns. *)
Record Prediction := mkPrediction {
  pred_game_id : string;
  pred_predictor : string
}.

(** A row of a one-column result set, the tuple [(game_id,)] that
    [cursor.fetchall()] yields. *)
Record Row := mkRow { col0 : string }.

(** The tables owned by the collaborators (play-by-play logs, game states,
    prior states, feature sets) are kept as untyped rows under their name. *)
Record Database := mkDatabase {
  Games : list Game;
  Predictions : list Prediction;
  other_tables : gmap string (list (list string))
}.

#[global] Instance Game_eq_dec : EqDecision Game.
Proof. solve_decision. Defined.
#[global] Instance Prediction_eq_dec : EqDecision Prediction.
Proof. solve_decision. Defined.
#[global] Instance Row_eq_dec : EqDecision Row.
Proof. solve_decision. Defined.

(** Modelled from the spec: the schema of [Games] is not in src; the data
    model gives every game a unique identifier (the primary key). *)
Definition games_primary_key (games : list Game) : Prop :=
  NoDup (game_id <$> games).

(** ** SQL fragments shared by the queries *)

(** [a < b] on TEXT columns: byte-wise comparison. *)
Definition text_lt (a b : string) : Prop := String.ltb a b = true.

(** [season_type IN ("Regular Season", "Post Season")] *)
Definition season_type_in_scope (g : Game) : Prop :=
  season_type g ∈ ["Regular Season"; "Post Season"].

(** [status = 'Completed' OR status = 'In Progress'] *)
Definition started (g : Game) : Prop :=
  status g = "Completed" ∨ status g = "In Progress".

(** The body of the [NOT EXISTS] subquery: [g2] is a game of the season,
    earlier than [g1], with one of [g1]'s teams on either side, whose game
    data is not final. *)
Definition blocks (s : string) (g1 g2 : Game) : Prop :=
  season g2 = s
  ∧ text_lt (date_time_est g2) (date_time_est g1)
  ∧ (home_team g2 = home_team g1 ∨ away_team g2 = home_team g1
     ∨ home_team g2 = away_team g1 ∨ away_team g2 = away_team g1)
  ∧ game_data_finalized g2 = 0.

#[global] Instance text_lt_dec a b : Decision (text_lt a b).
Proof. unfold text_lt. apply _. Defined.
#[global] Instance season_type_in_scope_dec g : Decision (season_type_in_scope g).
Proof. unfold season_type_in_scope. apply _. Defined.
#[global] Instance started_dec g : Decision (started g).
Proof. unfold started. apply _. Defined.
#[global] Instance blocks_dec s g1 g2 : Decision (blocks s g1 g2).
Proof. unfold blocks. apply _. Defined.

(** [SELECT game_id FROM Games WHERE P], fetched with [fetchall()]. *)
Definition select_game_id (P : Game → Prop) `{!∀ g, Decision (P g)}
    (games : list Game) : list Row :=
  (λ g, mkRow (game_id g)) <$> filter P games.

(** [a <= b] on the one TEXT column of two result rows. *)
Definition row_le (r1 r2 : Row) : Prop := String.leb (col0 r1) (col0 r2) = true.

#[global] Instance row_le_dec r1 r2 : Decision (row_le r1 r2).
Proof. unfold row_le. apply _. Defined.

(** [q1 UNION q2]: the rows of both, duplicates removed.  SQLite computes a
    UNION through a sorted temporary index, so the rows come back in
    ascending order; SQL itself leaves the order open, and the claims use
    membership only. *)
Definition sql_union (q1 q2 : list Row) : list Row :=
  merge_sort row_le (remove_dups (q1 ++ q2)).

(** [Games g LEFT JOIN Predictions p ON g.game_id = p.game_id AND
    p.predictor = ?]: every game paired with each of its matching
    predictions, or with NULL columns when it has none. *)
Definition left_join_predictions (predictor : string)
    (games : list Game) (preds : list Prediction)
    : list (Game * option Prediction) :=
  g ← games;
  match filter (λ p, game_id g = pred_game_id p ∧ pred_predictor p = predictor) preds with
  | [] => [(g, None)]
  | ps => (λ p, (g, Some p)) <$> ps
  end.

(** [p.game_id IS NULL] on a joined row. *)
Definition pred_game_id_is_null (r : Game * option Prediction) : Prop :=
  pred_game_id <$> r.2 = None.

#[global] Instance pred_game_id_is_null_dec r : Decision (pred_game_id_is_null r).
Proof. unfold pred_game_id_is_null. apply _. Defined.

(** ** Python values

    The work-set functions return Python lists; database_updater.py returns
    lists of strings, on_load.py returns the fetched tuples in one place.
    [to_py] places the typed results in one universe of values so that
    results of the two modules can be compared. *)
Inductive pyval :=
  | PyStr (s : string)
  | PyTuple (vs : list pyval)
  | PyList (vs : list pyval).

Class ToPy (A : Type) := to_py : A → pyval.
#[global] Hint Mode ToPy ! : typeclass_instances.

#[global] Instance string_to_py : ToPy string := PyStr.
#[global] Instance Row_to_py : ToPy Row := λ r, PyTuple [PyStr (col0 r)].
#[global] Instance list_to_py `{ToPy A} : ToPy (list A) := λ l, PyList (to_py <$> l).

(** ** Exceptions and state *)

Inductive exn :=
  | KeyError (key : string)
  | OperationalError.

Inductive outcome (A : Type) :=
  | Returned (a : A)
  | Raised (e : exn).
Arguments Returned {A} a.
Arguments Raised {A} e.

(** A statement sequence over a store [S]: it leaves a store behind and
    either returns or raises; what was written before a raise stays. *)
Definition M (S A : Type) : Type := S → S * outcome A.

#[global] Instance M_ret {S} : MRet (M S) := λ A a s, (s, Returned a).
#[global] Instance M_bind {S} : MBind (M S) := λ A B f m s,
  match m s with
  | (s', Returned a) => f a s'
  | (s', Raised e) => (s', Raised e)
  end.

Definition gets {S A} (f : S → A) : M S A := λ s, (s, Returned (f s)).
Definition modify {S} (f : S → S) : M S unit := λ s, (f s, Returned tt).
Definition raise {S A} (e : exn) : M S A := λ s, (s, Raised e).

(** A [for] loop that threads an accumulator and may raise. *)
Fixpoint for_each {S A B} (f : B → A → M S B) (acc : B) (l : list A) : M S B :=
  match l with
  | [] => mret acc
  | x :: l' => acc' ← f acc x; for_each f acc' l'
  end.

(** ** Collaborator data *)

(** [basic_game_info[game_id]] *)
Record BasicGameInfo := mkBasicGameInfo {
  info_home : string;
  info_away : string;
  info_date_time_est : string
}.

(** [game_state_inputs[game_id]] *)
Record GameStateInput (Log : Type) := mkGameStateInput {
  input_home : string;
  input_away : string;
  input_date_time_est : string;
  input_pbp_logs : Log
}.
Arguments mkGameStateInput {Log}.

(** [states["missing_prior_states"]] *)
Record MissingPriorStates := mkMissing { home : bool; away : bool }.

(** [prior_states_dict[game_id]] *)
Record States (Data : Type) := mkStates {
  home_prior_states : Data;
  away_prior_states : Data;
  missing_prior_states : MissingPriorStates
}.
Arguments mkStates {Data}.
Arguments missing_prior_states {Data}.

(** The functions imported from the other modules of the package, and the
    point at which the storage layer fails during a batch write, if it
    does.  Readers are functions of the database; writers transform it;
    [update_schedule], a stage of the orchestrator by itself, returns or
    raises like the other stages. *)
Class Environment := {
  PbpLog : Type;
  GameState : Type;
  PriorStatesNeeded : Type;
  PriorStateData : Type;
  FeatureSet : Type;
  PredictionData : Type;
  update_schedule : string → M Database unit;
  lookup_basic_game_info : list string → Database → gmap string BasicGameInfo;
  get_pbp : list string → gmap string PbpLog;
  save_pbp : gmap string PbpLog → Database → Database;
  create_game_states : gmap string (GameStateInput PbpLog) → gmap string GameState;
  save_game_states : gmap string GameState → Database → Database;
  determine_prior_states_needed : list string → Database → PriorStatesNeeded;
  load_prior_states : PriorStatesNeeded → Database → gmap string (States PriorStateData);
  create_feature_sets : gmap string (States PriorStateData) → Database → gmap string FeatureSet;
  save_feature_sets : gmap string FeatureSet → Database → Database;
  load_feature_sets : pyval → Database → gmap string FeatureSet;
  make_pre_game_predictions : gmap string FeatureSet → string → gmap string PredictionData;
  make_predictions : gmap string FeatureSet → string → gmap string PredictionData;
  save_predictions : gmap string PredictionData → string → Database → Database;
  storage_fault : Database → option nat
}.

(** ** The batch write *)

Definition set_pre_game_data_finalized (flag : Z) (g : Game) : Game :=
  mkGame (game_id g) (date_time_est g) (home_team g) (away_team g) (status g)
         (season g) (season_type g) flag (game_data_finalized g).

(** [UPDATE Games SET pre_game_data_finalized = ? WHERE game_id = ?] *)
Definition sql_update (u : Z * string) (games : list Game) : list Game :=
  (λ g, if decide (game_id g = u.2) then set_pre_game_data_finalized u.1 g else g)
    <$> games.

Definition update_games (f : list Game → list Game) (d : Database) : Database :=
  mkDatabase (f (Games d)) (Predictions d) (other_tables d).

(** An open [sqlite3] connection: the database as committed, and the
    working copy of the open transaction, if one is open. *)
Record Connection := mkConnection {
  committed : Database;
  transaction : option Database
}.

Definition connect (d : Database) : Connection := mkConnection d None.

(** One [UPDATE] on the connection; the module opens a transaction before
    the first data-modifying statement. *)
Definition execute_update (u : Z * string) (c : Connection) : Connection :=
  let work := default (committed c) (transaction c) in
  mkConnection (committed c) (Some (update_games (sql_update u) work)).

(** [cursor.executemany(sql, data)]: one [UPDATE] per pair, in order.  With
    [fault = Some k] the storage layer fails at the [UPDATE] that follows
    the first [k] of the batch.  The failures modelled are those of the
    [UPDATE] statements of a batch; opening the connection, preparing the
    statement, BEGIN and COMMIT are taken to succeed, so nothing is said
    here about a run in which one of them fails. *)
Fixpoint executemany (fault : option nat) (ran : nat) (data : list (Z * string))
    : M Connection unit :=
  match data with
  | [] => mret tt
  | u :: rest =>
      if decide (fault = Some ran) then raise OperationalError
      else modify (execute_update u);; executemany fault (S ran) rest
  end.

Definition commit : M Connection unit :=
  modify (λ c, mkConnection (default (committed c) (transaction c)) None).

Definition rollback : M Connection unit :=
  modify (λ c, mkConnection (committed c) None).

(** [with sqlite3.connect(db_path) as conn: body]: leaving the block
    commits when the body returned and rolls back when it raised; the
    exception propagates. *)
Definition with_connection {A} (body : M Connection A) : M Database A := λ d,
  match body (connect d) with
  | (c, Returned a) => (committed (commit c).1, Returned a)
  | (c, Raised e) => (committed (rollback c).1, Raised e)
  end.

(** The Readiness Evaluator: [int(not home and not away)]. *)
Definition readiness (m : MissingPriorStates) : Z :=
  Z.b2z (negb (home m) && negb (away m)).

(** The loop over [prior_states_dict.items()].  A dict holds each key once;
    the order of its items decides the order of the batch only, and two
    updates of different rows commute. *)
Definition games_update_data {Data} (prior_states_dict : gmap string (States Data))
    : list (Z * string) :=
  (λ kv : string * States Data,
     let pre_game_data_finalized := readiness (missing_prior_states kv.2) in
     (pre_game_data_finalized, kv.1))
    <$> map_to_list prior_states_dict.

(** ** The orchestrator's record of stage calls *)

Inductive Call :=
  | Call_update_schedule (s : string)
  | Call_update_game_data (s : string)
  | Call_update_pre_game_data (s : string)
  | Call_update_predictions (s predictor : string).

Record Run := mkRun { db : Database; calls : list Call }.

(** A call made by the orchestrator: recorded, then executed. *)
Definition call {A} (c : Call) (body : M Database A) : M Run A := λ r,
  let '(d', o) := body (db r) in (mkRun d' (calls r ++ [c]), o).

(** ** database_updater.py *)
Module DU.

Definition get_games_needing_game_state_update (s : string) (d : Database)
    : list string :=
  let games_to_update :=
    select_game_id (λ g, season g = s
                         ∧ season_type_in_scope g
                         ∧ started g
                         ∧ game_data_finalized g = 0) (Games d) in
  col0 <$> games_to_update.

Definition get_games_with_incomplete_pre_game_data (s : string) (d : Database)
    : list string :=
  let results :=
    sql_union
      (select_game_id (λ g, season g = s
                            ∧ season_type_in_scope g
                            ∧ pre_game_data_finalized g = 0
                            ∧ started g) (Games d))
      (select_game_id (λ g1, season g1 = s
                             ∧ season_type_in_scope g1
                             ∧ pre_game_data_finalized g1 = 0
                             ∧ status g1 = "Not Started"
                             ∧ ¬ Exists (blocks s g1) (Games d)) (Games d)) in
  col0 <$> results.

Definition get_games_for_prediction_update (s predictor : string) (d : Database)
    : list string :=
  let result :=
    (λ r : Game * option Prediction, mkRow (game_id r.1)) <$>
      filter (λ r : Game * option Prediction,
                season r.1 = s
                ∧ season_type_in_scope r.1
                ∧ pre_game_data_finalized r.1 = 1
                ∧ pred_game_id_is_null r)
             (left_join_predictions predictor (Games d) (Predictions d)) in
  let game_ids := col0 <$> result in
  game_ids.

Section Stages.
Context `{Environment}.

Definition update_game_data (s : string) : M Database unit :=
  game_ids ← gets (get_games_needing_game_state_update s);
  basic_game_info ← gets (lookup_basic_game_info game_ids);
  let pbp_data := get_pbp game_ids in
  modify (save_pbp pbp_data);;
  game_state_inputs ←
    for_each (λ inputs (kv : string * PbpLog),
                match basic_game_info !! kv.1 with
                | None => raise (KeyError kv.1)
                | Some info =>
                    mret (<[kv.1 := mkGameStateInput (info_home info) (info_away info)
                                      (info_date_time_est info) kv.2]> inputs)
                end)
             (∅ : gmap string (GameStateInput PbpLog)) (map_to_list pbp_data);
  let game_states := create_game_states game_state_inputs in
  modify (save_game_states game_states).

Definition update_pre_game_data (s : string) : M Database unit :=
  game_ids ← gets (get_games_with_incomplete_pre_game_data s);
  prior_states_needed ← gets (determine_prior_states_needed game_ids);
  prior_states_dict ← gets (load_prior_states prior_states_needed);
  feature_sets ← gets (create_feature_sets prior_states_dict);
  modify (save_feature_sets feature_sets);;
  (* the storage layer decides whether, and where, the batch fails *)
  fault ← gets storage_fault;
  with_connection
    (executemany fault 0 (games_update_data prior_states_dict);; commit).

Definition update_prediction_data (s predictor : string) : M Database unit :=
  game_ids ← gets (get_games_for_prediction_update s predictor);
  feature_sets ← gets (load_feature_sets (to_py game_ids));
  let predictions := make_pre_game_predictions feature_sets predictor in
  modify (save_predictions predictions predictor).

(** [if predictor:] is false for [None] and for the empty string. *)
Definition update_database (s : string) (predictor : option string) : M Run unit :=
  call (Call_update_schedule s) (update_schedule s);;
  call (Call_update_game_data s) (update_game_data s);;
  call (Call_update_pre_game_data s) (update_pre_game_data s);;
  match predictor with
  | Some p =>
      if decide (p = "") then mret tt
      else call (Call_update_predictions s p) (update_prediction_data s p)
  | None => mret tt
  end.

End Stages.

End DU.

(** ** on_load.py *)
Module OL.

Definition get_games_needing_game_state_update (s : string) (d : Database)
    : list string :=
  let games_to_update :=
    select_game_id (λ g, season g = s
                         ∧ started g
                         ∧ game_data_finalized g = 0) (Games d) in
  col0 <$> games_to_update.

Definition get_games_with_incomplete_pre_game_data (s : string) (d : Database)
    : list string :=
  let results :=
    sql_union
      (select_game_id (λ g, season g = s
                            ∧ pre_game_data_finalized g = 0
                            ∧ started g) (Games d))
      (select_game_id (λ g1, season g1 = s
                             ∧ pre_game_data_finalized g1 = 0
                             ∧ status g1 = "Not Started"
                             ∧ ¬ Exists (blocks s g1) (Games d)) (Games d)) in
  col0 <$> results.

(** Returns [result] as fetched: the list of one-column rows. *)
Definition get_games_for_prediction_update (s predictor : string) (d : Database)
    : list Row :=
  let result :=
    (λ r : Game * option Prediction, mkRow (game_id r.1)) <$>
      filter (λ r : Game * option Prediction,
                season r.1 = s
                ∧ pre_game_data_finalized r.1 = 1
                ∧ pred_game_id_is_null r)
             (left_join_predictions predictor (Games d) (Predictions d)) in
  result.

Section Stages.
Context `{Environment}.

Definition update_game_data (s : string) : M Database unit :=
  game_ids ← gets (get_games_needing_game_state_update s);
  basic_game_info ← gets (lookup_basic_game_info game_ids);
  let pbp_data := get_pbp game_ids in
  modify (save_pbp pbp_data);;
  game_state_inputs ←
    for_each (λ inputs (kv : string * PbpLog),
                match basic_game_info !! kv.1 with
                | None => raise (KeyError kv.1)
                | Some info =>
                    mret (<[kv.1 := mkGameStateInput (info_home info) (info_away info)
                                      (info_date_time_est info) kv.2]> inputs)
                end)
             (∅ : gmap string (GameStateInput PbpLog)) (map_to_list pbp_data);
  let game_states := create_game_states game_state_inputs in
  modify (save_game_states game_states).

Definition update_pre_game_data (s : string) : M Database unit :=
  game_ids ← gets (get_games_with_incomplete_pre_game_data s);
  prior_states_needed ← gets (determine_prior_states_needed game_ids);
  prior_states_dict ← gets (load_prior_states prior_states_needed);
  feature_sets ← gets (create_feature_sets prior_states_dict);
  modify (save_feature_sets feature_sets);;
  (* the storage layer decides whether, and where, the batch fails *)
  fault ← gets storage_fault;
  with_connection
    (executemany fault 0 (games_update_data prior_states_dict);; commit).

Definition update_predictions (s predictor : string) : M Database unit :=
  game_ids ← gets (get_games_for_prediction_update s predictor);
  feature_sets ← gets (load_feature_sets (to_py game_ids));
  let predictions := make_predictions feature_sets predictor in
  modify (save_predictions predictions predictor).

Definition update_database (s : string) (predictor : option string) : M Run unit :=
  call (Call_update_schedule s) (update_schedule s);;
  call (Call_update_game_data s) (update_game_data s);;
  call (Call_update_pre_game_data s) (update_pre_game_data s);;
  match predictor with
  | Some p =>
      if decide (p = "") then mret tt
      else call (Call_update_predictions s p) (update_predictions s p)
  | None => mret tt
  end.

End Stages.

End OL.

(** ** The two modules side by side *)

Inductive SourceModule := database_updater | on_load.

Definition pre_game_work_set (m : SourceModule) : string → Database → list string :=
  match m with
  | database_updater => DU.get_games_with_incomplete_pre_game_data
  | on_load => OL.get_games_with_incomplete_pre_game_data
  end.

Definition update_pre_game_data `{Environment} (m : SourceModule)
    : string → M Database unit :=
  match m with
  | database_updater => DU.update_pre_game_data
  | on_load => OL.update_pre_game_data
  end.

Definition update_database `{Environment} (m : SourceModule)
    : string → option string → M Run unit :=
  match m with
  | database_updater => DU.update_database
  | on_load => OL.update_database
  end.

(** The mapping [load_prior_states] returns in a run of the pre-game-data
    stage that starts from [d]. *)
Definition loaded_prior_states `{Environment} (m : SourceModule) (s : string)
    (d : Database) : gmap string (States PriorStateData) :=
  load_prior_states (determine_prior_states_needed (pre_game_work_set m s d) d) d.

(** The database as the batch write of that run finds it. *)
Definition before_write `{Environment} (m : SourceModule) (s : string)
    (d : Database) : Database :=
  save_feature_sets (create_feature_sets (loaded_prior_states m s d) d) d.

(** All updates of a batch applied, in order. *)
Definition write_all (data : list (Z * string)) (d : Database) : Database :=
  foldl (λ d u, update_games (sql_update u) d) d data.

(** A stage that returned. *)
Definition is_returned {A} (o : outcome A) : Prop := ∃ a, o = Returned a.

(** The calls of a run of the orchestrator in which no stage raises. *)
Definition stage_plan (s : string) (predictor : option string) : list Call :=
  [Call_update_schedule s; Call_update_game_data s; Call_update_pre_game_data s]
  ++ match predictor with
     | Some p => if decide (p = "") then [] else [Call_update_predictions s p]
     | None => []
     end.

(** Two rows that differ at most in [pre_game_data_finalized]. *)
Definition same_other_columns (g g' : Game) : Prop :=
  game_id g' = game_id g
  ∧ date_time_est g' = date_time_est g
  ∧ home_team g' = home_team g
  ∧ away_team g' = away_team g
  ∧ status g' = status g
  ∧ season g' = season g
  ∧ season_type g' = season_type g
  ∧ game_data_finalized g' = game_data_finalized g.

(** ** Predicates of the claims *)

(** A game of the table has a matching prediction row. *)
Definition has_prediction (predictor : string) (preds : list Prediction) (g : Game)
    : Prop :=
  ∃ p, p ∈ preds ∧ pred_game_id p = game_id g ∧ pred_predictor p = predictor.

(** The games the claim on the game-data work set names. *)
Definition needs_game_state (s : string) (d : Database) (id : string) : Prop :=
  ∃ g, g ∈ Games d ∧ game_id g = id ∧ season g = s
       ∧ started g ∧ game_data_finalized g = 0.

(** Invariant I3 for a game [G]: some other game of the season,
    scheduled strictly earlier and sharing one of [G]'s teams on either
    side, has game_data_finalized = 0. *)
Definition has_unsettled_predecessor (s : string) (d : Database) (G : Game) : Prop :=
  ∃ g2, g2 ∈ Games d ∧ game_id g2 ≠ game_id G ∧ blocks s G g2.

(** What a batch does to one row. *)
Definition update_row (data : list (Z * string)) (g : Game) : Game :=
  foldl (λ g u, if decide (game_id g = u.2)
                then set_pre_game_data_finalized u.1 g else g) g data.

(** ** A concrete environment and databases for the examples *)

Definition set_game_data_finalized (flag : Z) (g : Game) : Game :=
  mkGame (game_id g) (date_time_est g) (home_team g) (away_team g) (status g)
         (season g) (season_type g) (pre_game_data_finalized g) flag.

(** Collaborators that always find what they look for: every requested game
    has basic info and a log, saving game states settles the games, no prior
    state is missing, and the storage never fails. *)
Definition demo_environment : Environment := {|
  PbpLog := list string;
  GameState := string;
  PriorStatesNeeded := list string;
  PriorStateData := list string;
  FeatureSet := list string;
  PredictionData := string;
  update_schedule := λ _ d, (d, Returned tt);
  lookup_basic_game_info := λ ids d,
    list_to_map ((λ g, (game_id g,
                        mkBasicGameInfo (home_team g) (away_team g) (date_time_est g)))
                 <$> filter (λ g, game_id g ∈ ids) (Games d));
  get_pbp := λ ids, list_to_map ((λ id, (id, ["Jump Ball"])) <$> ids);
  save_pbp := λ _ d, d;
  create_game_states := λ inputs, (λ _, "final") <$> inputs;
  save_game_states := λ states,
    update_games (fmap (λ g, if decide (is_Some (states !! game_id g))
                             then set_game_data_finalized 1 g else g));
  determine_prior_states_needed := λ ids _, ids;
  load_prior_states := λ ids _,
    list_to_map ((λ id, (id, mkStates [] [] (mkMissing false false))) <$> ids);
  create_feature_sets := λ psd _, (λ _, []) <$> psd;
  save_feature_sets := λ _ d, d;
  load_feature_sets := λ _ _, ∅;
  make_pre_game_predictions := λ fs _, (λ _, "home") <$> fs;
  make_predictions := λ fs _, (λ _, "home") <$> fs;
  save_predictions := λ preds predictor d,
    mkDatabase (Games d)
               (Predictions d ++ ((λ kv, mkPrediction kv.1 predictor) <$> map_to_list preds))
               (other_tables d);
  storage_fault := λ _, None
|}.

(** The same collaborators over a storage that fails after one row of the
    batch. *)
Definition faulty_environment : Environment := {|
  PbpLog := @PbpLog demo_environment;
  GameState := @GameState demo_environment;
  PriorStatesNeeded := @PriorStatesNeeded demo_environment;
  PriorStateData := @PriorStateData demo_environment;
  FeatureSet := @FeatureSet demo_environment;
  PredictionData := @PredictionData demo_environment;
  update_schedule := @update_schedule demo_environment;
  lookup_basic_game_info := @lookup_basic_game_info demo_environment;
  get_pbp := @get_pbp demo_environment;
  save_pbp := @save_pbp demo_environment;
  create_game_states := @create_game_states demo_environment;
  save_game_states := @save_game_states demo_environment;
  determine_prior_states_needed := @determine_prior_states_needed demo_environment;
  load_prior_states := @load_prior_states demo_environment;
  create_feature_sets := @create_feature_sets demo_environment;
  save_feature_sets := @save_feature_sets demo_environment;
  load_feature_sets := @load_feature_sets demo_environment;
  make_pre_game_predictions := @make_pre_game_predictions demo_environment;
  make_predictions := @make_predictions demo_environment;
  save_predictions := @save_predictions demo_environment;
  storage_fault := λ _, Some 1%nat
|}.

Definition preseason_game : Game :=
  mkGame "0012300001" "2023-10-05 12:00:00" "DAL" "MIN" "Completed"
         "2023-2024" "Pre Season" 0 0.

Definition preseason_db : Database := mkDatabase [preseason_game] [] ∅.

Definition not_started_preseason_game : Game :=
  mkGame "0012300002" "2023-10-06 19:00:00" "BOS" "PHI" "Not Started"
         "2023-2024" "Pre Season" 0 0.

Definition not_started_preseason_db : Database :=
  mkDatabase [not_started_preseason_game] [] ∅.

Definition finalized_preseason_game : Game :=
  mkGame "0012300003" "2023-10-08 18:00:00" "MIA" "CHA" "Completed"
         "2023-2024" "Pre Season" 1 1.

Definition finalized_preseason_db : Database :=
  mkDatabase [finalized_preseason_game] [] ∅.

(** Opening week: the Lakers' first game is played but not settled, their
    second game waits for it, and a third game shares no team with them. *)
Definition lakers_opener : Game :=
  mkGame "0022300061" "2023-10-24 19:30:00" "DEN" "LAL" "Completed"
         "2023-2024" "Regular Season" 1 0.

Definition lakers_second : Game :=
  mkGame "0022300075" "2023-10-26 22:00:00" "LAL" "PHX" "Not Started"
         "2023-2024" "Regular Season" 0 0.

Definition celtics_opener : Game :=
  mkGame "0022300063" "2023-10-25 19:00:00" "NYK" "BOS" "Not Started"
         "2023-2024" "Regular Season" 0 0.

Definition opening_week_db : Database :=
  mkDatabase [lakers_opener; lakers_second; celtics_opener] [] ∅.

(** The same week once the first game is settled. *)
Definition settled_week_db : Database :=
  mkDatabase [set_game_data_finalized 1 lakers_opener; lakers_second; celtics_opener]
             [] ∅.

(** A batch of three pairs for the rows of the opening week. *)
Definition three_flags : list (Z * string) :=
  [(0, "0022300061"); (1, "0022300075"); (1, "0022300063")].


(** ** The other stages and queries, by module *)

Definition game_data_work_set (m : SourceModule) : string → Database → list string :=
  match m with
  | database_updater => DU.get_games_needing_game_state_update
  | on_load => OL.get_games_needing_game_state_update
  end.

(** The identifiers of the prediction work set (on_load.py wraps each in a
    row). *)
Definition prediction_work_set (m : SourceModule)
    : string → string → Database → list string :=
  match m with
  | database_updater => DU.get_games_for_prediction_update
  | on_load => λ s predictor d, col0 <$> OL.get_games_for_prediction_update s predictor d
  end.

Definition update_game_data `{Environment} (m : SourceModule)
    : string → M Database unit :=
  match m with
  | database_updater => DU.update_game_data
  | on_load => OL.update_game_data
  end.

(** What a run of the game-data stage that starts from [d] fetches. *)
Definition fetched_basic_game_info `{Environment} (m : SourceModule) (s : string)
    (d : Database) : gmap string BasicGameInfo :=
  lookup_basic_game_info (game_data_work_set m s d) d.

Definition fetched_pbp `{Environment} (m : SourceModule) (s : string)
    (d : Database) : gmap string PbpLog :=
  get_pbp (game_data_work_set m s d).

(** The inputs of [create_game_states]: a log joined with the basic info of
    its game. *)
Definition merged_inputs {Log} (info : gmap string BasicGameInfo)
    (pbp : gmap string Log) : gmap string (GameStateInput Log) :=
  map_zip_with (λ i l, mkGameStateInput (info_home i) (info_away i)
                         (info_date_time_est i) l) info pbp.

(** A row after a batch built from a mapping has been applied. *)
Definition finalize_row {Data} (psd : gmap string (States Data)) (g : Game) : Game :=
  match psd !! game_id g with
  | Some st => set_pre_game_data_finalized (readiness (missing_prior_states st)) g
  | None => g
  end.

Definition boolean_flag (g : Game) : Prop :=
  pre_game_data_finalized g = 0 ∨ pre_game_data_finalized g = 1.

(** Two games with a team in common, on either side. *)
Definition shares_team (g1 g2 : Game) : Prop :=
  home_team g2 = home_team g1 ∨ away_team g2 = home_team g1
  ∨ home_team g2 = away_team g1 ∨ away_team g2 = away_team g1.

(** The games of one season. *)
Definition season_games (s : string) (d : Database) : list Game :=
  filter (λ g, season g = s) (Games d).

(** A stored prediction more. *)
Definition add_prediction (id predictor : string) (d : Database) : Database :=
  mkDatabase (Games d) (Predictions d ++ [mkPrediction id predictor]) (other_tables d).

(** Collaborators as in [demo_environment], except that the schedule sync
    finds the storage unavailable. *)
Definition offline_environment : Environment := {|
  PbpLog := @PbpLog demo_environment;
  GameState := @GameState demo_environment;
  PriorStatesNeeded := @PriorStatesNeeded demo_environment;
  PriorStateData := @PriorStateData demo_environment;
  FeatureSet := @FeatureSet demo_environment;
  PredictionData := @PredictionData demo_environment;
  update_schedule := λ _ d, (d, Raised OperationalError);
  lookup_basic_game_info := @lookup_basic_game_info demo_environment;
  get_pbp := @get_pbp demo_environment;
  save_pbp := @save_pbp demo_environment;
  create_game_states := @create_game_states demo_environment;
  save_game_states := @save_game_states demo_environment;
  determine_prior_states_needed := @determine_prior_states_needed demo_environment;
  load_prior_states := @load_prior_states demo_environment;
  create_feature_sets := @create_feature_sets demo_environment;
  save_feature_sets := @save_feature_sets demo_environment;
  load_feature_sets := @load_feature_sets demo_environment;
  make_pre_game_predictions := @make_pre_game_predictions demo_environment;
  make_predictions := @make_predictions demo_environment;
  save_predictions := @save_predictions demo_environment;
  storage_fault := @storage_fault demo_environment
|}.

(** Collaborators as in [demo_environment], except that no basic info is
    found for any game. *)
Definition forgetful_environment : Environment := {|
  PbpLog := @PbpLog demo_environment;
  GameState := @GameState demo_environment;
  PriorStatesNeeded := @PriorStatesNeeded demo_environment;
  PriorStateData := @PriorStateData demo_environment;
  FeatureSet := @FeatureSet demo_environment;
  PredictionData := @PredictionData demo_environment;
  update_schedule := @update_schedule demo_environment;
  lookup_basic_game_info := λ _ _, ∅;
  get_pbp := @get_pbp demo_environment;
  save_pbp := λ pbp d,
    mkDatabase (Games d) (Predictions d)
               (<["PbP_Logs" := (λ kv, kv.1 :: kv.2) <$> map_to_list pbp]> (other_tables d));
  create_game_states := @create_game_states demo_environment;
  save_game_states := @save_game_states demo_environment;
  determine_prior_states_needed := @determine_prior_states_needed demo_environment;
  load_prior_states := @load_prior_states demo_environment;
  create_feature_sets := @create_feature_sets demo_environment;
  save_feature_sets := @save_feature_sets demo_environment;
  load_feature_sets := @load_feature_sets demo_environment;
  make_pre_game_predictions := @make_pre_game_predictions demo_environment;
  make_predictions := @make_predictions demo_environment;
  save_predictions := @save_predictions demo_environment;
  storage_fault := @storage_fault demo_environment
|}.

(** The opening week with an exhibition game of another season added. *)
Definition exhibition_game : Game :=
  mkGame "0012200005" "2022-10-03 19:00:00" "LAL" "SAC" "Completed"
         "2022-2023" "Pre Season" 0 0.

Definition opening_week_with_exhibition_db : Database :=
  mkDatabase (exhibition_game :: Games opening_week_db) [] ∅.

(** The season_type condition of a module: database_updater.py has one,
    on_load.py has none. *)
Definition in_scope (m : SourceModule) (g : Game) : Prop :=
  match m with
  | database_updater => season_type_in_scope g
  | on_load => True
  end.

#[global] Instance in_scope_dec m g : Decision (in_scope m g).
Proof. destruct m; simpl; apply _. Defined.

(** No row of the prediction store matches the game and the predictor. *)
Definition no_prediction (predictor : string) (preds : list Prediction) (g : Game)
    : Prop :=
  filter (λ p, game_id g = pred_game_id p ∧ pred_predictor p = predictor) preds = [].

(** A database with the games of one season only. *)
Definition only_season (s : string) (d : Database) : Database :=
  mkDatabase (season_games s d) (Predictions d) (other_tables d).

(** A game that was put off and still shows its first date, and a later
    game of one of its teams that has been played since. *)
Definition postponed_game : Game :=
  mkGame "0022300090" "2023-10-25 19:00:00" "NYK" "BOS" "Not Started"
         "2023-2024" "Regular Season" 0 0.

Definition played_later_game : Game :=
  mkGame "0022300104" "2023-10-27 19:30:00" "BOS" "MIA" "Completed"
         "2023-2024" "Regular Season" 0 0.

Definition postponed_db : Database :=
  mkDatabase [postponed_game; played_later_game] [] ∅.

(** Two states of a row between which game_data_finalized may have been
    set but not cleared, and nothing else has changed. *)
Definition settles (g g' : Game) : Prop :=
  game_id g' = game_id g
  ∧ date_time_est g' = date_time_est g
  ∧ home_team g' = home_team g
  ∧ away_team g' = away_team g
  ∧ status g' = status g
  ∧ season g' = season g
  ∧ season_type g' = season_type g
  ∧ pre_game_data_finalized g' = pre_game_data_finalized g
  ∧ (game_data_finalized g' = 0 → game_data_finalized g = 0).

(** * Properties *)

(** ** Membership in the result of a query *)

Lemma elem_of_select_game_id (P : Game → Prop) `{!∀ g, Decision (P g)} games id :
  id ∈ col0 <$> select_game_id P games ↔ ∃ g, g ∈ games ∧ game_id g = id ∧ P g.
Proof.
  unfold select_game_id. rewrite <- list_fmap_compose, list_elem_of_fmap.
  split.
  - intros (g & -> & [HP Hg]%list_elem_of_filter). exists g. auto.
  - intros (g & Hg & <- & HP). exists g. split; [done|].
    apply list_elem_of_filter; done.
Qed.

Lemma elem_of_sql_union q1 q2 id :
  id ∈ col0 <$> sql_union q1 q2 ↔ id ∈ col0 <$> q1 ∨ id ∈ col0 <$> q2.
Proof.
  unfold sql_union. rewrite !list_elem_of_fmap. split.
  - intros (r & -> & Hr). rewrite merge_sort_Permutation in Hr.
    apply elem_of_remove_dups, elem_of_app in Hr as [Hr|Hr];
      [left|right]; exists r; done.
  - intros [(r & -> & Hr)|(r & -> & Hr)]; exists r; split; try done;
      rewrite merge_sort_Permutation;
      apply elem_of_remove_dups, elem_of_app; auto.
Qed.


Lemma elem_of_left_join_null predictor games preds g :
  (g, None) ∈ left_join_predictions predictor games preds
  ↔ g ∈ games ∧ ¬ has_prediction predictor preds g.
Proof.
  unfold left_join_predictions. rewrite list_elem_of_bind. split.
  - intros (g' & Hin & Hg').
    destruct (filter _ preds) as [|p ps] eqn:Hf.
    + apply list_elem_of_singleton in Hin. injection Hin as ->. split; [done|].
      intros (p & Hp & Hid & Hpr).
      assert (p ∈ filter (λ p, game_id g' = pred_game_id p ∧ pred_predictor p = predictor) preds)
        as Hin by (apply list_elem_of_filter; done).
      rewrite Hf in Hin. by apply elem_of_nil in Hin.
    + apply list_elem_of_fmap in Hin as (p' & [=] & _).
  - intros [Hg Hno]. exists g. split; [|done].
    destruct (filter _ preds) as [|p ps] eqn:Hf; [apply list_elem_of_singleton; done|].
    exfalso. apply Hno. exists p.
    assert (p ∈ filter (λ p, game_id g = pred_game_id p ∧ pred_predictor p = predictor) preds)
      as Hp by (rewrite Hf; left).
    apply list_elem_of_filter in Hp as [[? ?] ?]. done.
Qed.

Lemma left_join_null_row predictor games preds (r : Game * option Prediction) :
  r ∈ left_join_predictions predictor games preds ∧ pred_game_id_is_null r
  ↔ r.2 = None ∧ r.1 ∈ games ∧ ¬ has_prediction predictor preds r.1.
Proof.
  destruct r as [g [p|]]; unfold pred_game_id_is_null; simpl.
  - split; [intros [_ Hn] | intros [Hn _]]; discriminate Hn.
  - rewrite elem_of_left_join_null. split; [intros [? _]|intros [_ ?]]; auto.
Qed.

(** The primary key makes the identifier determine the row. *)
Lemma primary_key_inj games g g' :
  games_primary_key games → g ∈ games → g' ∈ games →
  game_id g = game_id g' → g = g'.
Proof.
  unfold games_primary_key. induction games as [|x l IH]; simpl.
  - intros _ []%elem_of_nil.
  - intros [Hx Hl]%NoDup_cons [->|Hg]%elem_of_cons [->|Hg']%elem_of_cons Heq; auto.
    + exfalso. apply Hx. rewrite Heq. apply list_elem_of_fmap_2. done.
    + exfalso. apply Hx. rewrite <- Heq. apply list_elem_of_fmap_2. done.
Qed.

Lemma text_lt_irrefl a : ¬ text_lt a a.
Proof.
  unfold text_lt, String.ltb. pose proof (String.compare_antisym a a) as Hc.
  destruct (String.compare a a); simpl in Hc; congruence.
Qed.

(** ** The game-data work set *)

Lemma DU_game_state_update_spec s d id :
  id ∈ DU.get_games_needing_game_state_update s d
  ↔ ∃ g, g ∈ Games d ∧ game_id g = id ∧ season g = s ∧ season_type_in_scope g
         ∧ started g ∧ game_data_finalized g = 0.
Proof. unfold DU.get_games_needing_game_state_update. apply elem_of_select_game_id. Qed.

Lemma OL_game_state_update_spec s d id :
  id ∈ OL.get_games_needing_game_state_update s d
  ↔ ∃ g, g ∈ Games d ∧ game_id g = id ∧ season g = s
         ∧ started g ∧ game_data_finalized g = 0.
Proof. unfold OL.get_games_needing_game_state_update. apply elem_of_select_game_id. Qed.



(** C3, as stated, fails on database_updater.py: a completed pre-season
    game whose game data is not final is a game of the season the claim
    names, and the query leaves it out. *)
Lemma C3_counterexample :
  needs_game_state "2023-2024" preseason_db "0012300001"
  ∧ "0012300001" ∉ DU.get_games_needing_game_state_update "2023-2024" preseason_db.
Proof.
  split.
  - exists preseason_game. repeat split; try done; [left|left]; done.
  - vm_compute. apply not_elem_of_nil.
Qed.

(** C3 (amended): the game-data work set holds exactly the identifiers of
    the games of the season that are Completed or In Progress with
    game_data_finalized false and, in database_updater.py, whose
    season_type is Regular Season or Post Season; under the primary key no
    Not Started game is in it. *)
Theorem C3_game_data_work_set s d :
  (∀ id, (id ∈ DU.get_games_needing_game_state_update s d)
         ↔ (∃ g, g ∈ Games d ∧ game_id g = id ∧ season g = s
                 ∧ season_type_in_scope g ∧ started g ∧ game_data_finalized g = 0))
  ∧ (∀ id, (id ∈ OL.get_games_needing_game_state_update s d)
           ↔ (needs_game_state s d id))
  ∧ (games_primary_key (Games d) →
     ∀ g, g ∈ Games d → status g = "Not Started" →
          (game_id g ∉ DU.get_games_needing_game_state_update s d)
          ∧ (game_id g ∉ OL.get_games_needing_game_state_update s d)).
Proof.
  split; [intros id; apply DU_game_state_update_spec|].
  split; [intros id; apply OL_game_state_update_spec|].
  intros Hpk g Hg Hst.
  assert (¬ started g) as Hns
    by (unfold started; rewrite Hst; intros [?|?]; discriminate).
  split.
  - intros (g' & Hg' & Hid & _ & _ & Hs & _)%DU_game_state_update_spec.
    by rewrite (primary_key_inj _ _ _ Hpk Hg' Hg Hid) in Hs.
  - intros (g' & Hg' & Hid & _ & Hs & _)%OL_game_state_update_spec.
    by rewrite (primary_key_inj _ _ _ Hpk Hg' Hg Hid) in Hs.
Qed.

Lemma opening_week_primary_key : games_primary_key (Games opening_week_db).
Proof. unfold games_primary_key. apply (bool_decide_unpack _). vm_compute. exact I. Defined.

Lemma C3_game_data_work_set_witness :
  (∀ id, (id ∈ DU.get_games_needing_game_state_update "2023-2024" opening_week_db)
         ↔ (∃ g, g ∈ Games opening_week_db ∧ game_id g = id ∧ season g = "2023-2024"
                 ∧ season_type_in_scope g ∧ started g ∧ game_data_finalized g = 0))
  ∧ (∀ id, (id ∈ OL.get_games_needing_game_state_update "2023-2024" opening_week_db)
           ↔ (needs_game_state "2023-2024" opening_week_db id))
  ∧ (game_id lakers_second
       ∉ DU.get_games_needing_game_state_update "2023-2024" opening_week_db)
  ∧ (game_id lakers_second
       ∉ OL.get_games_needing_game_state_update "2023-2024" opening_week_db).
Proof.
  destruct (C3_game_data_work_set "2023-2024" opening_week_db) as (HDU & HOL & Hns).
  split; [exact HDU|]. split; [exact HOL|].
  apply (Hns opening_week_primary_key lakers_second).
  - apply (bool_decide_unpack _). vm_compute. exact I.
  - reflexivity.
Defined.

(** ** The pre-game-data work set *)

Lemma DU_incomplete_pre_game_data_spec s d id :
  id ∈ DU.get_games_with_incomplete_pre_game_data s d
  ↔ ∃ g, g ∈ Games d ∧ game_id g = id ∧ season g = s ∧ season_type_in_scope g
         ∧ pre_game_data_finalized g = 0
         ∧ (started g ∨ status g = "Not Started" ∧ ¬ Exists (blocks s g) (Games d)).
Proof.
  unfold DU.get_games_with_incomplete_pre_game_data.
  rewrite elem_of_sql_union, !elem_of_select_game_id. split.
  - intros [(g & Hg & Hid & Hs & Ht & Hp & Hst)|(g & Hg & Hid & Hs & Ht & Hp & Hst & Hb)];
      exists g; auto 10.
  - intros (g & Hg & Hid & Hs & Ht & Hp & [Hst|[Hst Hb]]);
      [left|right]; exists g; auto 10.
Qed.

Lemma OL_incomplete_pre_game_data_spec s d id :
  id ∈ OL.get_games_with_incomplete_pre_game_data s d
  ↔ ∃ g, g ∈ Games d ∧ game_id g = id ∧ season g = s
         ∧ pre_game_data_finalized g = 0
         ∧ (started g ∨ status g = "Not Started" ∧ ¬ Exists (blocks s g) (Games d)).
Proof.
  unfold OL.get_games_with_incomplete_pre_game_data.
  rewrite elem_of_sql_union, !elem_of_select_game_id. split.
  - intros [(g & Hg & Hid & Hs & Hp & Hst)|(g & Hg & Hid & Hs & Hp & Hst & Hb)];
      exists g; auto 10.
  - intros (g & Hg & Hid & Hs & Hp & [Hst|[Hst Hb]]);
      [left|right]; exists g; auto 10.
Qed.

(** Both modules select only rows whose flag is [0]. *)
Lemma DU_incomplete_pre_game_data_flag s d id :
  id ∈ DU.get_games_with_incomplete_pre_game_data s d →
  ∃ g, g ∈ Games d ∧ game_id g = id ∧ pre_game_data_finalized g = 0.
Proof.
  intros (g & Hg & Hid & _ & _ & Hp & _)%DU_incomplete_pre_game_data_spec.
  exists g. auto.
Qed.

Lemma OL_incomplete_pre_game_data_flag s d id :
  id ∈ OL.get_games_with_incomplete_pre_game_data s d →
  ∃ g, g ∈ Games d ∧ game_id g = id ∧ pre_game_data_finalized g = 0.
Proof.
  intros (g & Hg & Hid & _ & Hp & _)%OL_incomplete_pre_game_data_spec.
  exists g. auto.
Qed.


Lemma unsettled_predecessor_iff s d G :
  games_primary_key (Games d) → G ∈ Games d →
  has_unsettled_predecessor s d G ↔ Exists (blocks s G) (Games d).
Proof.
  intros Hpk HG. rewrite Exists_exists. split.
  - intros (g2 & Hg2 & _ & Hb). eauto.
  - intros (g2 & Hg2 & Hb). exists g2. repeat split; try apply Hb; [done|].
    (* an earlier game is another game *)
    intros Heq. destruct Hb as (_ & Hlt & _).
    rewrite (primary_key_inj _ _ _ Hpk Hg2 HG Heq) in Hlt.
    by apply text_lt_irrefl in Hlt.
Qed.

(** C1, as stated, fails on database_updater.py: a Not Started pre-season
    game of the season with pre_game_data_finalized = 0 and no earlier
    game at all is not in the work set. *)
Lemma C1_counterexample :
  games_primary_key (Games not_started_preseason_db)
  ∧ not_started_preseason_game ∈ Games not_started_preseason_db
  ∧ status not_started_preseason_game = "Not Started"
  ∧ season not_started_preseason_game = "2023-2024"
  ∧ pre_game_data_finalized not_started_preseason_game = 0
  ∧ ¬ has_unsettled_predecessor "2023-2024" not_started_preseason_db
        not_started_preseason_game
  ∧ game_id not_started_preseason_game
      ∉ DU.get_games_with_incomplete_pre_game_data "2023-2024" not_started_preseason_db.
Proof.
  repeat split.
  - unfold games_primary_key. simpl. apply NoDup_singleton.
  - simpl. left.
  - intros (g2 & Hg2 & Hne & _). simpl in Hg2.
    apply list_elem_of_singleton in Hg2. subst g2. done.
  - vm_compute. apply not_elem_of_nil.
Qed.

(** C1 (amended): for a Not Started game G of the queried season with
    pre_game_data_finalized = 0, G is in the pre-game-data work set of
    on_load.py exactly when no other game of the season, scheduled strictly
    earlier and sharing a team of G on either side, has
    game_data_finalized = 0; in database_updater.py exactly when, in
    addition, the season_type of G is Regular Season or Post Season. *)
Theorem C1_pre_game_work_set s d G :
  games_primary_key (Games d) →
  G ∈ Games d →
  status G = "Not Started" →
  season G = s →
  pre_game_data_finalized G = 0 →
  (game_id G ∈ DU.get_games_with_incomplete_pre_game_data s d
   ↔ season_type_in_scope G ∧ ¬ has_unsettled_predecessor s d G)
  ∧ (game_id G ∈ OL.get_games_with_incomplete_pre_game_data s d
     ↔ ¬ has_unsettled_predecessor s d G).
Proof.
  intros Hpk HG Hst Hs Hp.
  rewrite (unsettled_predecessor_iff s d G Hpk HG).
  assert (¬ started G) as Hns
    by (unfold started; rewrite Hst; intros [?|?]; discriminate).
  split.
  - rewrite DU_incomplete_pre_game_data_spec. split.
    + intros (g & Hg & Hid & _ & Ht & _ & Hor).
      rewrite (primary_key_inj _ _ _ Hpk Hg HG Hid) in Ht, Hor.
      destruct Hor as [?|[_ ?]]; done.
    + intros [Ht Hb]. exists G. auto 10.
  - rewrite OL_incomplete_pre_game_data_spec. split.
    + intros (g & Hg & Hid & _ & _ & Hor).
      rewrite (primary_key_inj _ _ _ Hpk Hg HG Hid) in Hor.
      destruct Hor as [?|[_ ?]]; done.
    + intros Hb. exists G. auto 10.
Qed.

Lemma C1_pre_game_work_set_witness :
  (game_id lakers_second
     ∈ DU.get_games_with_incomplete_pre_game_data "2023-2024" opening_week_db
   ↔ season_type_in_scope lakers_second
     ∧ ¬ has_unsettled_predecessor "2023-2024" opening_week_db lakers_second)
  ∧ (game_id lakers_second
       ∈ OL.get_games_with_incomplete_pre_game_data "2023-2024" opening_week_db
     ↔ ¬ has_unsettled_predecessor "2023-2024" opening_week_db lakers_second).
Proof.
  apply (C1_pre_game_work_set "2023-2024" opening_week_db lakers_second).
  - exact opening_week_primary_key.
  - apply (bool_decide_unpack _). vm_compute. exact I.
  - reflexivity.
  - reflexivity.
  - reflexivity.
Defined.

(** Scenario B of the spec: the second game of a team is held back while
    the first is unsettled, and is selected once the first is settled. *)
Example second_game_waits_for_first :
  DU.get_games_with_incomplete_pre_game_data "2023-2024" opening_week_db
    = ["0022300063"]
  ∧ DU.get_games_with_incomplete_pre_game_data "2023-2024" settled_week_db
    = ["0022300063"; "0022300075"]
  ∧ OL.get_games_with_incomplete_pre_game_data "2023-2024" settled_week_db
    = ["0022300063"; "0022300075"].
Proof. by vm_compute. Qed.

(** ** The prediction work set *)

Lemma OL_prediction_update_spec s predictor d r :
  r ∈ OL.get_games_for_prediction_update s predictor d
  ↔ ∃ g, g ∈ Games d ∧ mkRow (game_id g) = r ∧ season g = s
         ∧ pre_game_data_finalized g = 1
         ∧ ¬ has_prediction predictor (Predictions d) g.
Proof.
  unfold OL.get_games_for_prediction_update. rewrite list_elem_of_fmap. split.
  - intros (jr & -> & [(Hs & Hp & Hnull) Hin]%list_elem_of_filter).
    destruct (proj1 (left_join_null_row _ _ _ jr) (conj Hin Hnull)) as (_ & Hg & Hno).
    exists jr.1. auto.
  - intros (g & Hg & <- & Hs & Hp & Hno). exists (g, None). split; [done|].
    apply list_elem_of_filter.
    destruct (proj2 (left_join_null_row predictor (Games d) (Predictions d) (g, None)))
      as [Hin Hnull]; auto.
Qed.

Lemma DU_prediction_update_spec s predictor d id :
  id ∈ DU.get_games_for_prediction_update s predictor d
  ↔ ∃ g, g ∈ Games d ∧ game_id g = id ∧ season g = s ∧ season_type_in_scope g
         ∧ pre_game_data_finalized g = 1
         ∧ ¬ has_prediction predictor (Predictions d) g.
Proof.
  unfold DU.get_games_for_prediction_update.
  rewrite <- list_fmap_compose, list_elem_of_fmap. split.
  - intros (jr & -> & [(Hs & Ht & Hp & Hnull) Hin]%list_elem_of_filter).
    destruct (proj1 (left_join_null_row _ _ _ jr) (conj Hin Hnull)) as (_ & Hg & Hno).
    exists jr.1. auto 10.
  - intros (g & Hg & <- & Hs & Ht & Hp & Hno). exists (g, None). split; [done|].
    apply list_elem_of_filter.
    destruct (proj2 (left_join_null_row predictor (Games d) (Predictions d) (g, None)))
      as [Hin Hnull]; auto.
Qed.

(** C4, as stated, fails on database_updater.py: a pre-season game of the
    season with pre_game_data_finalized = 1 and no prediction record for
    the predictor is not in the prediction work set. *)
Lemma C4_counterexample :
  games_primary_key (Games finalized_preseason_db)
  ∧ finalized_preseason_game ∈ Games finalized_preseason_db
  ∧ season finalized_preseason_game = "2023-2024"
  ∧ pre_game_data_finalized finalized_preseason_game = 1
  ∧ ¬ has_prediction "Random" (Predictions finalized_preseason_db)
        finalized_preseason_game
  ∧ game_id finalized_preseason_game
      ∉ DU.get_games_for_prediction_update "2023-2024" "Random" finalized_preseason_db.
Proof.
  repeat split.
  - unfold games_primary_key. simpl. apply NoDup_singleton.
  - simpl. left.
  - intros (p & Hp & _). simpl in Hp. by apply elem_of_nil in Hp.
  - vm_compute. apply not_elem_of_nil.
Qed.

(** C4 (amended): for every season and predictor name, a game of that
    season is selected for the prediction work set by on_load.py exactly
    when its pre_game_data_finalized flag is 1 and the prediction store has
    no record for (its identifier, the predictor name); by
    database_updater.py exactly when, in addition, its season_type is
    Regular Season or Post Season. *)
Theorem C4_prediction_work_set s predictor d g :
  games_primary_key (Games d) →
  g ∈ Games d →
  season g = s →
  (game_id g ∈ DU.get_games_for_prediction_update s predictor d
   ↔ season_type_in_scope g
     ∧ pre_game_data_finalized g = 1
     ∧ ¬ has_prediction predictor (Predictions d) g)
  ∧ (game_id g ∈ col0 <$> OL.get_games_for_prediction_update s predictor d
     ↔ pre_game_data_finalized g = 1
       ∧ ¬ has_prediction predictor (Predictions d) g).
Proof.
  intros Hpk Hg Hs. split.
  - rewrite DU_prediction_update_spec. split.
    + intros (g' & Hg' & Hid & _ & Ht & Hp & Hno).
      rewrite (primary_key_inj _ _ _ Hpk Hg' Hg Hid) in Ht, Hp, Hno. done.
    + intros (Ht & Hp & Hno). exists g. auto 10.
  - rewrite list_elem_of_fmap. split.
    + intros (r & Hid & (g' & Hg' & <- & _ & Hp & Hno)%OL_prediction_update_spec).
      simpl in Hid. symmetry in Hid.
      rewrite (primary_key_inj _ _ _ Hpk Hg' Hg Hid) in Hp, Hno. done.
    + intros (Hp & Hno). exists (mkRow (game_id g)). split; [done|].
      apply OL_prediction_update_spec. exists g. auto 10.
Qed.

Lemma C4_prediction_work_set_witness :
  (game_id lakers_opener
     ∈ DU.get_games_for_prediction_update "2023-2024" "Random" opening_week_db
   ↔ season_type_in_scope lakers_opener
     ∧ pre_game_data_finalized lakers_opener = 1
     ∧ ¬ has_prediction "Random" (Predictions opening_week_db) lakers_opener)
  ∧ (game_id lakers_opener
       ∈ col0 <$> OL.get_games_for_prediction_update "2023-2024" "Random" opening_week_db
     ↔ pre_game_data_finalized lakers_opener = 1
       ∧ ¬ has_prediction "Random" (Predictions opening_week_db) lakers_opener).
Proof.
  apply (C4_prediction_work_set "2023-2024" "Random" opening_week_db lakers_opener).
  - exact opening_week_primary_key.
  - apply (bool_decide_unpack _). vm_compute. exact I.
  - reflexivity.
Defined.

(** Scenario C of the spec: a finalized game without a prediction is
    selected, and is not selected once the prediction is stored. *)
Example prediction_gap_closes :
  DU.get_games_for_prediction_update "2023-2024" "Random" opening_week_db
    = ["0022300061"]
  ∧ DU.get_games_for_prediction_update "2023-2024" "Random"
      (mkDatabase (Games opening_week_db) [mkPrediction "0022300061" "Random"] ∅)
    = []
  ∧ DU.get_games_for_prediction_update "2023-2024" "Baseline"
      (mkDatabase (Games opening_week_db) [mkPrediction "0022300061" "Random"] ∅)
    = ["0022300061"].
Proof. by vm_compute. Qed.

(** ** The batch write *)

Lemma set_flag_game_id f g : game_id (set_pre_game_data_finalized f g) = game_id g.
Proof. reflexivity. Qed.

Lemma set_flag_same_other_columns f g :
  same_other_columns g (set_pre_game_data_finalized f g).
Proof. repeat split. Qed.


Lemma write_all_games data d :
  Games (write_all data d) = update_row data <$> Games d.
Proof.
  unfold write_all, update_row. revert d.
  induction data as [|u data IH]; intros d; simpl.
  - by rewrite list_fmap_id.
  - rewrite IH. simpl. unfold sql_update. by rewrite <- list_fmap_compose.
Qed.

Lemma write_all_frame data d :
  Predictions (write_all data d) = Predictions d
  ∧ other_tables (write_all data d) = other_tables d.
Proof.
  unfold write_all. revert d. induction data as [|u data IH]; intros d; simpl; [done|].
  destruct (IH (update_games (sql_update u) d)) as [-> ->]. done.
Qed.

Lemma update_row_game_id data g : game_id (update_row data g) = game_id g.
Proof.
  unfold update_row. revert g. induction data as [|u data IH]; intros g; simpl; [done|].
  rewrite IH. by destruct (decide _).
Qed.

Lemma update_row_same_other_columns data g : same_other_columns g (update_row data g).
Proof.
  unfold update_row. revert g. induction data as [|u data IH]; intros g; simpl.
  - repeat split.
  - destruct (decide _); [|apply IH].
    destruct (IH (set_pre_game_data_finalized u.1 g)) as (?&?&?&?&?&?&?&?).
    repeat split; done.
Qed.

Lemma update_row_not_addressed data g :
  game_id g ∉ data.*2 → update_row data g = g.
Proof.
  unfold update_row. revert g. induction data as [|u data IH]; intros g; simpl; [done|].
  intros [Hu Hd]%not_elem_of_cons. rewrite decide_False by done. by apply IH.
Qed.

Lemma update_row_addressed data f g :
  NoDup data.*2 → (f, game_id g) ∈ data →
  update_row data g = set_pre_game_data_finalized f g.
Proof.
  revert g. induction data as [|u data IH]; intros g; simpl.
  - intros _ []%elem_of_nil.
  - intros [Hu Hnd]%NoDup_cons [<-|Hin]%elem_of_cons; unfold update_row; simpl.
    + rewrite decide_True by done.
      apply (update_row_not_addressed data (set_pre_game_data_finalized f g)). done.
    + rewrite decide_False.
      * by apply IH.
      * intros Heq. apply Hu. rewrite <- Heq.
        apply list_elem_of_fmap. exists (f, game_id g). done.
Qed.

(** The batch built from the mapping addresses each key once. *)
Lemma games_update_data_ids {Data} (psd : gmap string (States Data)) :
  (games_update_data psd).*2 = (map_to_list psd).*1.
Proof. unfold games_update_data. by rewrite <- list_fmap_compose. Qed.

Lemma elem_of_games_update_data {Data} (psd : gmap string (States Data)) f id :
  (f, id) ∈ games_update_data psd
  ↔ ∃ st, psd !! id = Some st ∧ f = readiness (missing_prior_states st).
Proof.
  unfold games_update_data. rewrite list_elem_of_fmap. split.
  - intros ([k st] & [= -> ->] & Hin%elem_of_map_to_list). eauto.
  - intros (st & Hst & ->). exists (id, st). split; [done|].
    by apply elem_of_map_to_list.
Qed.

(** The effect of the whole batch on a row, read off the mapping. *)
Lemma update_row_games_update_data {Data} (psd : gmap string (States Data)) g :
  update_row (games_update_data psd) g =
  match psd !! game_id g with
  | Some st => set_pre_game_data_finalized (readiness (missing_prior_states st)) g
  | None => g
  end.
Proof.
  destruct (psd !! game_id g) as [st|] eqn:Hst.
  - apply update_row_addressed.
    + rewrite games_update_data_ids. apply NoDup_fst_map_to_list.
    + apply elem_of_games_update_data. eauto.
  - apply update_row_not_addressed. rewrite games_update_data_ids.
    intros ([k st] & Hk & Hin%elem_of_map_to_list)%list_elem_of_fmap.
    simpl in Hk. congruence.
Qed.

(** The connection while a batch runs. *)
Lemma executemany_spec fault n data c :
  executemany fault n data c =
  match fault with
  | Some k =>
      if decide (n ≤ k < n + length data)%nat
      then (foldl (λ c u, execute_update u c) c (take (k - n) data),
            Raised OperationalError)
      else (foldl (λ c u, execute_update u c) c data, Returned tt)
  | None => (foldl (λ c u, execute_update u c) c data, Returned tt)
  end.
Proof.
  revert n c. induction data as [|u data IH]; intros n c; simpl.
  - destruct fault as [k|]; [|done]. by rewrite decide_False by lia.
  - destruct fault as [k|].
    + destruct (decide (Some k = Some n)) as [[= ->]|Hne].
      * rewrite decide_True by lia. by rewrite Nat.sub_diag.
      * assert (k ≠ n) by congruence.
        unfold mbind, M_bind, modify. simpl. rewrite IH.
        destruct (decide (S n ≤ k < S n + length data)%nat).
        -- rewrite decide_True by lia.
           replace (k - n)%nat with (S (k - S n)) by lia. done.
        -- rewrite decide_False by lia. done.
    + rewrite decide_False by done.
      unfold mbind, M_bind, modify. simpl. by rewrite IH.
Qed.

Lemma execute_updates_connection data c :
  committed (foldl (λ c u, execute_update u c) c data) = committed c
  ∧ default (committed c) (transaction (foldl (λ c u, execute_update u c) c data))
    = write_all data (default (committed c) (transaction c)).
Proof.
  revert c. induction data as [|u data IH]; intros c; simpl; [done|].
  destruct (IH (execute_update u c)) as [Hc Ht]. simpl in Hc, Ht.
  rewrite Hc, Ht. done.
Qed.

(** The [with] block of the stage, with and without a storage fault. *)
Lemma batch_write_spec fault data d :
  with_connection (executemany fault 0 data;; commit) d =
  match fault with
  | Some k => if decide (k < length data)%nat
              then (d, Raised OperationalError)
              else (write_all data d, Returned tt)
  | None => (write_all data d, Returned tt)
  end.
Proof.
  unfold with_connection, mbind, M_bind. rewrite executemany_spec.
  pose proof (execute_updates_connection data (connect d)) as [Hc Ht].
  simpl in Hc, Ht.
  destruct fault as [k|].
  - destruct (decide (0 ≤ k < 0 + length data)%nat).
    + rewrite decide_True by lia. simpl.
      pose proof (execute_updates_connection (take (k - 0) data) (connect d)) as [Hc' _].
      by rewrite Hc'.
    + rewrite decide_False by lia. simpl. by rewrite Hc, Ht.
  - simpl. by rewrite Hc, Ht.
Qed.

(** ** A run of the pre-game-data stage *)

Lemma update_pre_game_data_unfold `{Environment} m s d :
  update_pre_game_data m s d =
  with_connection
    (executemany (storage_fault (before_write m s d)) 0
                 (games_update_data (loaded_prior_states m s d));; commit)
    (before_write m s d).
Proof. destruct m; reflexivity. Qed.

(** The table after the run: the table the write found, with every row
    taken through [step], where [step] is the identity when the storage
    failed and the whole batch otherwise. *)
Lemma update_pre_game_data_games `{Environment} m s d :
  ∃ step : Game → Game,
    Games (update_pre_game_data m s d).1 = step <$> Games (before_write m s d)
    ∧ ∀ g, step g = g
           ∨ step g = update_row (games_update_data (loaded_prior_states m s d)) g.
Proof.
  rewrite update_pre_game_data_unfold, batch_write_spec.
  set (data := games_update_data _).
  assert (∃ b : bool, ∀ d0, (if b then (d0, Raised OperationalError)
                             else (write_all data d0, Returned tt)) =
    match storage_fault (before_write m s d) with
    | Some k => if decide (k < length data)%nat
                then (d0, Raised OperationalError)
                else (write_all data d0, Returned tt)
    | None => (write_all data d0, @Returned unit tt)
    end) as [b Hb].
  { destruct (storage_fault _) as [k|]; [destruct (decide _)|];
      [exists true|exists false|exists false]; done. }
  rewrite <- Hb. destruct b; simpl.
  - exists id. split; [by rewrite list_fmap_id|]. auto.
  - exists (update_row data). split; [apply write_all_games|]. auto.
Qed.

Lemma Forall2_fmap_self {A B} (R : A → B → Prop) (f : A → B) (l : list A) :
  (∀ x, x ∈ l → R x (f x)) → Forall2 R l (f <$> l).
Proof.
  intros HR. apply Forall2_fmap_r, Forall_Forall2_diag, Forall_forall. done.
Qed.

Lemma readiness_cases m :
  (readiness m = 1 ↔ home m = false ∧ away m = false)
  ∧ (readiness m = 0 ↔ home m = true ∨ away m = true).
Proof. destruct m as [[] []]; vm_compute; intuition congruence. Qed.

(** C2: for every game of the loaded prior-states mapping the batch holds
    one pair, its flag is the Readiness Evaluator's, and that flag is 1
    exactly when missing_prior_states.home and .away are both false and 0
    in the three other combinations. *)
Theorem C2_readiness {Data} (prior_states_dict : gmap string (States Data)) id st :
  prior_states_dict !! id = Some st →
  (∀ flag, (flag, id) ∈ games_update_data prior_states_dict
           ↔ flag = readiness (missing_prior_states st))
  ∧ (readiness (missing_prior_states st) = 1
     ↔ home (missing_prior_states st) = false ∧ away (missing_prior_states st) = false)
  ∧ (readiness (missing_prior_states st) = 0
     ↔ home (missing_prior_states st) = true ∨ away (missing_prior_states st) = true)
  ∧ readiness (mkMissing false false) = 1
  ∧ readiness (mkMissing false true) = 0
  ∧ readiness (mkMissing true false) = 0
  ∧ readiness (mkMissing true true) = 0.
Proof.
  intros Hst. split; [|split; [apply readiness_cases|split; [apply readiness_cases|done]]].
  intros flag. rewrite elem_of_games_update_data. split.
  - intros (st' & Hst' & ->). congruence.
  - intros ->. eauto.
Qed.

Lemma C2_readiness_witness :
  let psd : gmap string (States unit) :=
    {[ "0022300075" := mkStates tt tt (mkMissing false true) ]} in
  (∀ flag, (flag, "0022300075") ∈ games_update_data psd ↔ flag = 0)
  ∧ (0 = 1 ↔ false = false ∧ true = false)
  ∧ (0 = 0 ↔ false = true ∨ true = true)
  ∧ readiness (mkMissing false false) = 1
  ∧ readiness (mkMissing false true) = 0
  ∧ readiness (mkMissing true false) = 0
  ∧ readiness (mkMissing true true) = 0.
Proof.
  intros psd.
  apply (C2_readiness psd "0022300075" (mkStates tt tt (mkMissing false true))).
  reflexivity.
Defined.

(** C5 (invariant I1): after any run of update_pre_game_data, a row whose
    pre_game_data_finalized is 1 either had the flag at 1 before the run or
    is a key of the loaded prior-states mapping with both
    missing_prior_states values false.  The collaborator that saves the
    feature sets is assumed to leave the Games table alone. *)
Theorem C5_finalized_only_when_ready `{Environment} m s d :
  (∀ fs d0, Games (save_feature_sets fs d0) = Games d0) →
  Forall2
    (λ g g',
       pre_game_data_finalized g' = 1 →
       pre_game_data_finalized g = 1
       ∨ ∃ st, loaded_prior_states m s d !! game_id g = Some st
               ∧ home (missing_prior_states st) = false
               ∧ away (missing_prior_states st) = false)
    (Games d) (Games (update_pre_game_data m s d).1).
Proof.
  intros Hframe.
  destruct (update_pre_game_data_games m s d) as (step & -> & Hstep).
  unfold before_write. rewrite Hframe.
  apply Forall2_fmap_self. intros g _ Hg'.
  destruct (Hstep g) as [Hs|Hs]; rewrite Hs in Hg'; [auto|].
  rewrite update_row_games_update_data in Hg'.
  destruct (loaded_prior_states m s d !! game_id g) as [st|] eqn:Hst; [|auto].
  right. exists st. split; [done|]. simpl in Hg'. by apply readiness_cases.
Qed.

Lemma C5_finalized_only_when_ready_witness :
  Forall2
    (λ g g',
       pre_game_data_finalized g' = 1 →
       pre_game_data_finalized g = 1
       ∨ ∃ st, @loaded_prior_states demo_environment database_updater "2023-2024"
                 settled_week_db !! game_id g = Some st
               ∧ home (missing_prior_states st) = false
               ∧ away (missing_prior_states st) = false)
    (Games settled_week_db)
    (Games (@update_pre_game_data demo_environment database_updater "2023-2024"
              settled_week_db).1).
Proof.
  apply (@C5_finalized_only_when_ready demo_environment database_updater
           "2023-2024" settled_week_db).
  intros fs d0. reflexivity.
Defined.

(** C6 (invariant I2): when every key of the loaded prior-states mapping
    is an identifier of the pre-game-data work set, a row whose
    pre_game_data_finalized is 1 at the start of a run of
    update_pre_game_data is not written by the run: the work set holds
    only identifiers of rows whose flag is 0. *)
Theorem C6_no_regression `{Environment} m s d :
  (∀ fs d0, Games (save_feature_sets fs d0) = Games d0) →
  games_primary_key (Games d) →
  (∀ id st, loaded_prior_states m s d !! id = Some st → id ∈ pre_game_work_set m s d) →
  Forall2
    (λ g g', pre_game_data_finalized g = 1 → g' = g ∧ pre_game_data_finalized g' ≠ 0)
    (Games d) (Games (update_pre_game_data m s d).1).
Proof.
  intros Hframe Hpk Hkeys.
  destruct (update_pre_game_data_games m s d) as (step & -> & Hstep).
  unfold before_write. rewrite Hframe.
  apply Forall2_fmap_self. intros g Hg Hone.
  assert (step g = g) as ->; [|split; [done|lia]].
  destruct (Hstep g) as [Hs|Hs]; [done|]. rewrite Hs.
  rewrite update_row_games_update_data.
  destruct (loaded_prior_states m s d !! game_id g) as [st|] eqn:Hst; [|done].
  exfalso. apply Hkeys in Hst.
  assert (∃ g0, g0 ∈ Games d ∧ game_id g0 = game_id g ∧ pre_game_data_finalized g0 = 0)
    as (g0 & Hg0 & Hid & Hzero).
  { destruct m; [by apply DU_incomplete_pre_game_data_flag in Hst
                |by apply OL_incomplete_pre_game_data_flag in Hst]. }
  rewrite (primary_key_inj _ _ _ Hpk Hg0 Hg Hid) in Hzero. lia.
Qed.

Lemma settled_week_primary_key : games_primary_key (Games settled_week_db).
Proof. unfold games_primary_key. apply (bool_decide_unpack _). vm_compute. exact I. Defined.

Lemma C6_no_regression_witness :
  Forall2
    (λ g g', pre_game_data_finalized g = 1 → g' = g ∧ pre_game_data_finalized g' ≠ 0)
    (Games settled_week_db)
    (Games (@update_pre_game_data demo_environment database_updater "2023-2024"
              settled_week_db).1).
Proof.
  apply (@C6_no_regression demo_environment database_updater "2023-2024"
           settled_week_db).
  - intros fs d0. reflexivity.
  - exact settled_week_primary_key.
  - intros id st Hst. unfold loaded_prior_states in Hst. simpl in Hst.
    apply lookup_insert_Some in Hst as [[<- _]|[_ Hst]];
      [apply (bool_decide_unpack _); vm_compute; exact I|].
    apply lookup_insert_Some in Hst as [[<- _]|[_ Hst]];
      [apply (bool_decide_unpack _); vm_compute; exact I|].
    by rewrite lookup_empty in Hst.
Defined.

(** C10 (frame): the write of a run of update_pre_game_data changes at
    most the pre_game_data_finalized column of the Games table, and only in
    rows whose identifier is a key of the loaded prior-states mapping;
    every other column of every row, every row whose identifier is not a
    key, and the other tables stay as the write found them. *)
Theorem C10_write_frame `{Environment} m s d :
  Forall2
    (λ g g',
       same_other_columns g g'
       ∧ (loaded_prior_states m s d !! game_id g = None → g' = g))
    (Games (before_write m s d)) (Games (update_pre_game_data m s d).1)
  ∧ Predictions (update_pre_game_data m s d).1 = Predictions (before_write m s d)
  ∧ other_tables (update_pre_game_data m s d).1 = other_tables (before_write m s d).
Proof.
  split.
  - destruct (update_pre_game_data_games m s d) as (step & -> & Hstep).
    apply Forall2_fmap_self. intros g _.
    destruct (Hstep g) as [->| ->].
    + split; [repeat split|done].
    + split; [apply update_row_same_other_columns|].
      intros Hnone. rewrite update_row_games_update_data, Hnone. done.
  - rewrite update_pre_game_data_unfold, batch_write_spec.
    destruct (storage_fault _) as [k|]; [destruct (decide _)|]; simpl;
      try done; apply write_all_frame.
Qed.

(** C7: the Update Transaction Writer is atomic.  For a batch of N pairs
    and a storage failure after k < N rows, the open transaction holds a
    working copy with k rows updated, the block raises and rolls back, and
    the database is left as it was: 0 updates.  Without a failure all N
    updates are in the database.  No other outcome exists. *)
Theorem C7_atomic_batch_write (data : list (Z * string)) (d : Database) :
  (∀ k, (k < length data)%nat →
        executemany (Some k) 0 data (connect d) =
          ((executemany (Some k) 0 data (connect d)).1, Raised OperationalError)
        ∧ committed (executemany (Some k) 0 data (connect d)).1 = d
        ∧ default d (transaction (executemany (Some k) 0 data (connect d)).1)
          = write_all (take k data) d
        ∧ with_connection (executemany (Some k) 0 data;; commit) d
          = (d, Raised OperationalError))
  ∧ with_connection (executemany None 0 data;; commit) d
    = (write_all data d, Returned tt)
  ∧ (∀ fault,
       (with_connection (executemany fault 0 data;; commit) d).1 = d
       ∨ (with_connection (executemany fault 0 data;; commit) d).1 = write_all data d).
Proof.
  split; [|split].
  - intros k Hk.
    rewrite batch_write_spec, executemany_spec, !decide_True by lia. simpl.
    rewrite Nat.sub_0_r.
    pose proof (execute_updates_connection (take k data) (connect d)) as [Hc Ht].
    done.
  - apply batch_write_spec.
  - intros fault. rewrite batch_write_spec.
    destruct fault as [k|]; [destruct (decide _)|]; auto.
Qed.

Lemma C7_atomic_batch_write_witness :
  (executemany (Some 1%nat) 0 three_flags (connect opening_week_db) =
     ((executemany (Some 1%nat) 0 three_flags (connect opening_week_db)).1,
      Raised OperationalError)
   ∧ committed (executemany (Some 1%nat) 0 three_flags (connect opening_week_db)).1
     = opening_week_db
   ∧ default opening_week_db
       (transaction (executemany (Some 1%nat) 0 three_flags (connect opening_week_db)).1)
     = write_all (take 1 three_flags) opening_week_db
   ∧ with_connection (executemany (Some 1%nat) 0 three_flags;; commit) opening_week_db
     = (opening_week_db, Raised OperationalError))
  ∧ with_connection (executemany None 0 three_flags;; commit) opening_week_db
    = (write_all three_flags opening_week_db, Returned tt).
Proof.
  destruct (C7_atomic_batch_write three_flags opening_week_db) as (Hfault & Hok & _).
  split; [|exact Hok].
  apply (Hfault 1%nat). simpl. lia.
Defined.

(** A run over a storage that fails after one row leaves every flag as it
    was; the same run over a sound storage sets both flags. *)
Example faulty_run_writes_nothing :
  @update_pre_game_data faulty_environment database_updater "2023-2024" settled_week_db
    = (settled_week_db, Raised OperationalError)
  ∧ pre_game_data_finalized
      <$> Games (@update_pre_game_data demo_environment database_updater "2023-2024"
                   settled_week_db).1
    = [1; 1; 1].
Proof. by vm_compute. Qed.

(** ** The orchestrator *)

Lemma stage_plan_prediction s predictor p :
  Call_update_predictions s p ∈ stage_plan s predictor ↔ predictor = Some p ∧ p ≠ "".
Proof.
  unfold stage_plan. rewrite elem_of_app, !elem_of_cons, elem_of_nil. split.
  - intros [[?|[?|[?|[]]]]|Hin]; try discriminate.
    destruct predictor as [q|]; [|by apply elem_of_nil in Hin].
    destruct (decide (q = "")); [by apply elem_of_nil in Hin|].
    apply list_elem_of_singleton in Hin. injection Hin as ->. done.
  - intros [-> Hp]. right. rewrite decide_False by done. by apply list_elem_of_singleton.
Qed.

Lemma is_returned_Returned {A} (a : A) : is_returned (Returned a) ↔ True.
Proof. split; [done|]. intros _. by exists a. Qed.

Lemma is_returned_Raised {A} e : is_returned (@Raised A e) ↔ False.
Proof. split; [|done]. intros [a Ha]. discriminate Ha. Qed.

(** Closes one way a run can end: names the calls recorded, then checks
    each stage against the outcomes before it. *)
Ltac run_ends :=
  eexists; split; [rewrite <- ?(assoc_L (++)); simpl; reflexivity|];
  split; [by eexists|];
  repeat split; intros;
  rewrite ?is_returned_Returned, ?is_returned_Raised,
    ?elem_of_cons, ?elem_of_nil in *;
  intuition (try discriminate; try congruence).

(** C8, as stated, fails in two ways.  For the empty string: it is a
    supplied predictor argument, the run returns, and the prediction stage
    is not called.  For a run in which update_game_data raises: neither
    update_pre_game_data nor the prediction stage is called, although a
    predictor name is supplied. *)
Lemma C8_counterexample :
  let run m := @update_database demo_environment m "2023-2024" (Some "")
                 (mkRun opening_week_db []) in
  let failed := @update_database forgetful_environment database_updater
                  "2023-2024" (Some "Random") (mkRun opening_week_db []) in
  Some "" ≠ (None : option string)
  ∧ (run database_updater).2 = Returned tt
  ∧ (run on_load).2 = Returned tt
  ∧ calls (run database_updater).1
    = [Call_update_schedule "2023-2024"; Call_update_game_data "2023-2024";
       Call_update_pre_game_data "2023-2024"]
  ∧ calls (run on_load).1
    = [Call_update_schedule "2023-2024"; Call_update_game_data "2023-2024";
       Call_update_pre_game_data "2023-2024"]
  ∧ (∀ m p, Call_update_predictions "2023-2024" p ∉ calls (run m).1)
  ∧ failed.2 = Raised (KeyError "0022300061")
  ∧ calls failed.1
    = [Call_update_schedule "2023-2024"; Call_update_game_data "2023-2024"].
Proof.
  intros run failed.
  assert (∀ m, calls (run m).1
    = [Call_update_schedule "2023-2024"; Call_update_game_data "2023-2024";
       Call_update_pre_game_data "2023-2024"]) as Hcalls
    by (intros []; vm_compute; reflexivity).
  split; [done|]. split; [by vm_compute|]. split; [by vm_compute|].
  split; [apply Hcalls|]. split; [apply Hcalls|].
  split; [|split; vm_compute; reflexivity].
  intros m p. rewrite Hcalls, !elem_of_cons, elem_of_nil.
  intros [?|[?|[?|[]]]]; discriminate.
Qed.

(** C8 (amended): in every invocation of update_database the stages are
    called in the order schedule sync, game-data, pre-game-data,
    prediction, each at most once.  update_schedule is always called;
    update_game_data exactly when update_schedule returned;
    update_pre_game_data exactly when update_game_data returned as well;
    and the prediction stage exactly when all three returned and the
    predictor argument is neither None nor the empty string. *)
Theorem C8_stage_order `{Environment} m s predictor r :
  let schedule := update_schedule s (db r) in
  let game_data := update_game_data m s schedule.1 in
  let pre_game_data := update_pre_game_data m s game_data.1 in
  ∃ new,
    calls (update_database m s predictor r).1 = calls r ++ new
    ∧ new `prefix_of` stage_plan s predictor
    ∧ Call_update_schedule s ∈ new
    ∧ (Call_update_game_data s ∈ new ↔ is_returned schedule.2)
    ∧ (Call_update_pre_game_data s ∈ new
       ↔ is_returned schedule.2 ∧ is_returned game_data.2)
    ∧ (∀ p, Call_update_predictions s p ∈ new
            ↔ is_returned schedule.2 ∧ is_returned game_data.2
              ∧ is_returned pre_game_data.2
              ∧ predictor = Some p ∧ p ≠ "").
Proof.
  unfold stage_plan.
  destruct m; simpl;
    [unfold DU.update_database | unfold OL.update_database];
    unfold mbind, M_bind, call; simpl.
  - destruct (update_schedule s (db r)) as [d1 [[]|e1]]; simpl; [|run_ends].
    destruct (DU.update_game_data s d1) as [d2 [[]|e2]]; simpl; [|run_ends].
    destruct (DU.update_pre_game_data s d2) as [d3 [[]|e3]]; simpl; [|run_ends].
    destruct predictor as [p|]; [destruct (decide (p = ""))|]; simpl;
      [run_ends| |run_ends].
    destruct (DU.update_prediction_data s p d3) as [d4 o4]; simpl. run_ends.
  - destruct (update_schedule s (db r)) as [d1 [[]|e1]]; simpl; [|run_ends].
    destruct (OL.update_game_data s d1) as [d2 [[]|e2]]; simpl; [|run_ends].
    destruct (OL.update_pre_game_data s d2) as [d3 [[]|e3]]; simpl; [|run_ends].
    destruct predictor as [p|]; [destruct (decide (p = ""))|]; simpl;
      [run_ends| |run_ends].
    destruct (OL.update_predictions s p d3) as [d4 o4]; simpl. run_ends.
Qed.

Lemma C8_stage_order_witness :
  let r := mkRun opening_week_db [] in
  ∃ new,
    calls (@update_database demo_environment database_updater "2023-2024"
             (Some "Random") r).1 = calls r ++ new
    ∧ new `prefix_of` stage_plan "2023-2024" (Some "Random")
    ∧ Call_update_schedule "2023-2024" ∈ new
    ∧ Call_update_game_data "2023-2024" ∈ new
    ∧ Call_update_pre_game_data "2023-2024" ∈ new
    ∧ Call_update_predictions "2023-2024" "Random" ∈ new.
Proof.
  intros r.
  pose proof (@C8_stage_order demo_environment database_updater "2023-2024"
                (Some "Random") r) as Hrun.
  cbv zeta in Hrun.
  destruct Hrun as (new & Hcalls & Horder & Hfirst & Hsecond & Hthird & Hfourth).
  assert (∀ o : outcome unit, o = Returned tt → is_returned o) as Hret
    by (intros o ->; by exists tt).
  exists new. split; [exact Hcalls|]. split; [exact Horder|]. split; [exact Hfirst|].
  split; [apply Hsecond, Hret; vm_compute; reflexivity|].
  split; [apply Hthird; split; apply Hret; vm_compute; reflexivity|].
  apply Hfourth. repeat split; try (apply Hret; vm_compute; reflexivity).
  discriminate.
Defined.

(** With these collaborators the run returns, with all four calls made. *)
Example update_database_returns :
  let run := @update_database demo_environment database_updater "2023-2024"
               (Some "Random") (mkRun opening_week_db []) in
  run.2 = Returned tt ∧ calls run.1 = stage_plan "2023-2024" (Some "Random").
Proof. by vm_compute. Qed.

(** When the schedule sync raises, it is the only stage called. *)
Example schedule_failure_ends_the_run :
  @update_database offline_environment on_load "2023-2024" (Some "Random")
    (mkRun opening_week_db [])
  = (mkRun opening_week_db [Call_update_schedule "2023-2024"],
     Raised OperationalError).
Proof. by vm_compute. Qed.

(** ** The two modules compared *)

Lemma filter_ext_in {A} (P Q : A → Prop) `{!∀ x, Decision (P x), !∀ x, Decision (Q x)}
    (l : list A) :
  (∀ x, x ∈ l → P x ↔ Q x) → filter P l = filter Q l.
Proof.
  induction l as [|a l IH]; intros HPQ; [done|].
  assert (filter P l = filter Q l) as IH'
    by (apply IH; intros x Hx; apply HPQ; by right).
  destruct (decide (P a)) as [HP|HP].
  - rewrite !filter_cons_True, IH'; [done| |done]. apply HPQ; [left|done].
  - rewrite !filter_cons_False, IH'; [done| |done].
    intros HQ. apply HP, HPQ; [left|done].
Qed.

Lemma select_game_id_ext (P Q : Game → Prop)
    `{!∀ g, Decision (P g), !∀ g, Decision (Q g)} games :
  (∀ g, g ∈ games → P g ↔ Q g) → select_game_id P games = select_game_id Q games.
Proof. intros HPQ. unfold select_game_id. f_equal. by apply filter_ext_in. Qed.

Lemma left_join_game predictor games preds r :
  r ∈ left_join_predictions predictor games preds → r.1 ∈ games.
Proof.
  unfold left_join_predictions. intros (g & Hin & Hg)%list_elem_of_bind.
  destruct (filter _ preds) as [|p ps].
  - apply list_elem_of_singleton in Hin as ->. done.
  - apply list_elem_of_fmap in Hin as (p' & -> & _). done.
Qed.

(** Where every game of the season is a Regular Season or Post Season
    game, the two modules select the same rows; the prediction work set of
    database_updater.py is the list of identifiers of the rows on_load.py
    returns. *)
Lemma work_sets_agree_in_scope s predictor d :
  (∀ g, g ∈ Games d → season g = s → season_type_in_scope g) →
  DU.get_games_needing_game_state_update s d
    = OL.get_games_needing_game_state_update s d
  ∧ DU.get_games_with_incomplete_pre_game_data s d
    = OL.get_games_with_incomplete_pre_game_data s d
  ∧ DU.get_games_for_prediction_update s predictor d
    = col0 <$> OL.get_games_for_prediction_update s predictor d.
Proof.
  intros Hscope. split; [|split].
  - unfold DU.get_games_needing_game_state_update,
      OL.get_games_needing_game_state_update.
    simpl. f_equal. apply select_game_id_ext. intros g Hg.
    split; [intros (? & _ & ? & ?)|intros (? & ? & ?)]; auto.
  - unfold DU.get_games_with_incomplete_pre_game_data,
      OL.get_games_with_incomplete_pre_game_data, sql_union.
    simpl. f_equal. f_equal. f_equal. f_equal; apply select_game_id_ext; intros g Hg.
    + split; [intros (? & _ & ? & ?)|intros (? & ? & ?)]; auto.
    + split; [intros (? & _ & ? & ? & ?)|intros (? & ? & ? & ?)]; auto 10.
  - unfold DU.get_games_for_prediction_update,
      OL.get_games_for_prediction_update.
    simpl. f_equal. f_equal. apply filter_ext_in. intros r Hr%left_join_game.
    split; [intros (? & _ & ? & ?)|intros (? & ? & ?)]; auto.
Qed.

(** A list of strings and a list of one-element tuples are different
    Python values unless both are empty. *)
Lemma ids_differ_from_rows (rows : list Row) :
  rows ≠ [] → to_py (col0 <$> rows) ≠ to_py rows.
Proof.
  destruct rows as [|r rows]; [done|]. intros _.
  unfold to_py, list_to_py. simpl. unfold to_py at 1 3, string_to_py, Row_to_py.
  discriminate.
Qed.

(** C9 at the failing input: every game of the season is a Regular Season
    game, the first two work sets agree, and the prediction work sets are
    different values: database_updater.py returns the identifier,
    on_load.py the fetched tuple around it. *)
Theorem C9_prediction_work_sets_differ :
  (∀ g, g ∈ Games opening_week_db → season g = "2023-2024" → season_type_in_scope g)
  ∧ to_py (DU.get_games_needing_game_state_update "2023-2024" opening_week_db)
    = to_py (OL.get_games_needing_game_state_update "2023-2024" opening_week_db)
  ∧ to_py (DU.get_games_with_incomplete_pre_game_data "2023-2024" opening_week_db)
    = to_py (OL.get_games_with_incomplete_pre_game_data "2023-2024" opening_week_db)
  ∧ to_py (DU.get_games_for_prediction_update "2023-2024" "Random" opening_week_db)
    = PyList [PyStr "0022300061"]
  ∧ to_py (OL.get_games_for_prediction_update "2023-2024" "Random" opening_week_db)
    = PyList [PyTuple [PyStr "0022300061"]]
  ∧ to_py (DU.get_games_for_prediction_update "2023-2024" "Random" opening_week_db)
    ≠ to_py (OL.get_games_for_prediction_update "2023-2024" "Random" opening_week_db).
Proof.
  split.
  { intros g Hg _. simpl in Hg. unfold season_type_in_scope.
    repeat (apply elem_of_cons in Hg as [->|Hg]; [simpl; left|]).
    by apply elem_of_nil in Hg. }
  split; [by vm_compute|]. split; [by vm_compute|].
  split; [by vm_compute|]. split; [by vm_compute|].
  vm_compute. discriminate.
Qed.

(** * Further properties of the two modules *)

(** ** The game-data stage *)

Section GameDataStage.
Context {Log : Type} (info : gmap string BasicGameInfo).

(** The body of the loop over [pbp_data.items()]. *)
Let loop_body (inputs : gmap string (GameStateInput Log)) (kv : string * Log)
    : M Database (gmap string (GameStateInput Log)) :=
  match info !! kv.1 with
  | None => raise (KeyError kv.1)
  | Some i =>
      mret (<[kv.1 := mkGameStateInput (info_home i) (info_away i)
                        (info_date_time_est i) kv.2]> inputs)
  end.

Let insert_input (inputs : gmap string (GameStateInput Log)) (kv : string * Log)
    : gmap string (GameStateInput Log) :=
  match info !! kv.1 with
  | None => inputs
  | Some i => <[kv.1 := mkGameStateInput (info_home i) (info_away i)
                          (info_date_time_est i) kv.2]> inputs
  end.

Lemma loop_returns (l : list (string * Log)) acc d :
  (∀ kv, kv ∈ l → is_Some (info !! kv.1)) →
  for_each loop_body acc l d = (d, Returned (foldl insert_input acc l)).
Proof.
  revert acc. induction l as [|kv l IH]; intros acc Hall; simpl; [done|].
  unfold mbind, M_bind, loop_body at 1, insert_input at 2.
  destruct (Hall kv) as [i Hi]; [left|]. rewrite Hi. simpl.
  apply IH. intros kv' Hkv'. apply Hall. by right.
Qed.

Lemma loop_raises (l : list (string * Log)) acc d :
  (∃ kv, kv ∈ l ∧ info !! kv.1 = None) →
  ∃ kv, kv ∈ l ∧ info !! kv.1 = None
        ∧ for_each loop_body acc l d = (d, Raised (KeyError kv.1)).
Proof.
  revert acc. induction l as [|kv l IH]; intros acc (kv0 & Hin & Hnone).
  - by apply elem_of_nil in Hin.
  - simpl. unfold mbind, M_bind, loop_body at 1.
    destruct (info !! kv.1) as [i|] eqn:Hi; simpl.
    + apply elem_of_cons in Hin as [->|Hin]; [congruence|].
      destruct (IH (<[kv.1 := mkGameStateInput (info_home i) (info_away i)
                               (info_date_time_est i) kv.2]> acc))
        as (kv1 & Hin1 & Hnone1 & Hrun); [eauto|].
      exists kv1. split; [by right|]. done.
    + exists kv. split; [left|]. done.
Qed.

Lemma inserted_absent (l : list (string * Log)) acc k :
  k ∉ l.*1 → foldl insert_input acc l !! k = acc !! k.
Proof.
  revert acc. induction l as [|kv l IH]; intros acc Hk; simpl; [done|].
  apply not_elem_of_cons in Hk as [Hne Hk]. rewrite IH by done.
  unfold insert_input. destruct (info !! kv.1); [|done].
  by rewrite lookup_insert_ne.
Qed.

Lemma inserted_present (l : list (string * Log)) acc k v i :
  NoDup l.*1 → (k, v) ∈ l → info !! k = Some i →
  foldl insert_input acc l !! k
  = Some (mkGameStateInput (info_home i) (info_away i) (info_date_time_est i) v).
Proof.
  revert acc. induction l as [|kv l IH]; intros acc Hnd Hin Hi; simpl.
  - by apply elem_of_nil in Hin.
  - simpl in Hnd. apply NoDup_cons in Hnd as [Hfresh Hnd].
    apply elem_of_cons in Hin as [<-|Hin].
    + rewrite inserted_absent by done. unfold insert_input. simpl. rewrite Hi.
      by rewrite lookup_insert_eq.
    + by apply IH.
Qed.

Lemma inserted_all (pbp : gmap string Log) :
  (∀ id, is_Some (pbp !! id) → is_Some (info !! id)) →
  foldl insert_input ∅ (map_to_list pbp) = merged_inputs info pbp.
Proof.
  intros Hall. apply map_eq. intros k.
  unfold merged_inputs. rewrite map_lookup_zip_with.
  destruct (pbp !! k) as [v|] eqn:Hv.
  - destruct (Hall k) as [i Hi]; [eauto|]. rewrite Hi. simpl.
    apply inserted_present; [apply NoDup_fst_map_to_list| |done].
    by apply elem_of_map_to_list.
  - rewrite inserted_absent.
    + rewrite lookup_empty. by destruct (info !! k).
    + intros ([k' v] & Hk & Hin%elem_of_map_to_list)%list_elem_of_fmap.
      simpl in Hk. congruence.
Qed.

End GameDataStage.

(** The stage: work set, basic info, logs fetched and saved, then the loop,
    then the game states. *)
Lemma update_game_data_unfold `{Environment} m s d :
  update_game_data m s d =
  match for_each
          (λ inputs (kv : string * PbpLog),
             match fetched_basic_game_info m s d !! kv.1 with
             | None => raise (KeyError kv.1)
             | Some i =>
                 mret (<[kv.1 := mkGameStateInput (info_home i) (info_away i)
                                   (info_date_time_est i) kv.2]> inputs)
             end)
          (∅ : gmap string (GameStateInput PbpLog))
          (map_to_list (fetched_pbp m s d))
          (save_pbp (fetched_pbp m s d) d) with
  | (d', Returned inputs) => (save_game_states (create_game_states inputs) d', Returned tt)
  | (d', Raised e) => (d', Raised e)
  end.
Proof. destruct m; reflexivity. Qed.

(** X1: when lookup_basic_game_info has an entry for every game that get_pbp
    returned a log for, update_game_data returns: the logs are saved, every
    log is joined with the home, away and date_time_est of its game, and
    the game states created from exactly these inputs are saved. *)
Theorem X1_game_data_stage_returns `{Environment} m s d :
  (∀ id, is_Some (fetched_pbp m s d !! id) →
         is_Some (fetched_basic_game_info m s d !! id)) →
  update_game_data m s d
  = (save_game_states
       (create_game_states
          (merged_inputs (fetched_basic_game_info m s d) (fetched_pbp m s d)))
       (save_pbp (fetched_pbp m s d) d),
     Returned tt)
  ∧ (∀ id, is_Some (merged_inputs (fetched_basic_game_info m s d)
                                  (fetched_pbp m s d) !! id)
           ↔ is_Some (fetched_pbp m s d !! id))
  ∧ (∀ id i log,
       fetched_basic_game_info m s d !! id = Some i →
       fetched_pbp m s d !! id = Some log →
       merged_inputs (fetched_basic_game_info m s d) (fetched_pbp m s d) !! id
       = Some (mkGameStateInput (info_home i) (info_away i)
                                (info_date_time_est i) log)).
Proof.
  intros Hall. split; [|split].
  - rewrite update_game_data_unfold, loop_returns.
    + by rewrite inserted_all.
    + intros [k v] Hkv%elem_of_map_to_list. apply Hall. simpl. eauto.
  - intros id. unfold merged_inputs. rewrite map_lookup_zip_with. split.
    + destruct (fetched_pbp m s d !! id); [eauto|].
      destruct (fetched_basic_game_info m s d !! id); simpl; intros [? ?]; done.
    + intros Hlog. destruct (Hall id Hlog) as [i ->]. destruct Hlog as [log ->].
      simpl. eauto.
  - intros id i log Hi Hlog. unfold merged_inputs.
    by rewrite map_lookup_zip_with, Hi, Hlog.
Qed.

Lemma X1_game_data_stage_returns_witness :
  @update_game_data demo_environment database_updater "2023-2024" opening_week_db
  = (@save_game_states demo_environment
       (@create_game_states demo_environment
          (merged_inputs
             (@fetched_basic_game_info demo_environment database_updater
                "2023-2024" opening_week_db)
             (@fetched_pbp demo_environment database_updater
                "2023-2024" opening_week_db)))
       (@save_pbp demo_environment
          (@fetched_pbp demo_environment database_updater "2023-2024" opening_week_db)
          opening_week_db),
     Returned tt).
Proof.
  apply (@X1_game_data_stage_returns demo_environment database_updater
           "2023-2024" opening_week_db).
  intros id Hlog.
  destruct (decide (id = "0022300061")) as [->|Hne].
  - vm_compute. eauto.
  - exfalso. unfold fetched_pbp in Hlog. simpl in Hlog.
    rewrite lookup_insert_ne, lookup_empty in Hlog by done.
    by destruct Hlog.
Defined.

(** X2: when get_pbp returned a log for a game that lookup_basic_game_info
    has no entry for, update_game_data raises KeyError for such a game; the
    play-by-play logs are saved by then, and no game state is created or
    saved. *)
Theorem X2_game_data_stage_key_error `{Environment} m s d :
  (∃ id, is_Some (fetched_pbp m s d !! id)
         ∧ fetched_basic_game_info m s d !! id = None) →
  ∃ id, is_Some (fetched_pbp m s d !! id)
        ∧ fetched_basic_game_info m s d !! id = None
        ∧ update_game_data m s d
          = (save_pbp (fetched_pbp m s d) d, Raised (KeyError id)).
Proof.
  intros (id & [log Hlog] & Hnone).
  destruct (loop_raises (fetched_basic_game_info m s d)
              (map_to_list (fetched_pbp m s d)) ∅
              (save_pbp (fetched_pbp m s d) d))
    as ([k v] & Hin%elem_of_map_to_list & Hk & Hrun).
  { exists (id, log). split; [by apply elem_of_map_to_list|done]. }
  exists k. split; [eauto|]. split; [done|].
  rewrite update_game_data_unfold. simpl in Hrun. by rewrite Hrun.
Qed.

Lemma X2_game_data_stage_key_error_witness :
  ∃ id, is_Some (@fetched_pbp forgetful_environment on_load "2023-2024"
                   opening_week_db !! id)
        ∧ @fetched_basic_game_info forgetful_environment on_load "2023-2024"
            opening_week_db !! id = None
        ∧ @update_game_data forgetful_environment on_load "2023-2024" opening_week_db
          = (@save_pbp forgetful_environment
               (@fetched_pbp forgetful_environment on_load "2023-2024" opening_week_db)
               opening_week_db,
             Raised (KeyError id)).
Proof.
  apply (@X2_game_data_stage_key_error forgetful_environment on_load
           "2023-2024" opening_week_db).
  exists "0022300061". split; [vm_compute; eauto|reflexivity].
Defined.

(** The failed run of the example: the log of the one game to update is in
    the database, its game_data_finalized is still 0. *)
Example key_error_keeps_saved_logs :
  let run := @update_game_data forgetful_environment on_load "2023-2024"
               opening_week_db in
  run.2 = Raised (KeyError "0022300061")
  ∧ other_tables run.1 !! "PbP_Logs" = Some [["0022300061"; "Jump Ball"]]
  ∧ Games run.1 = Games opening_week_db.
Proof. by vm_compute. Qed.

(** ** The work sets, by module *)

Lemma game_data_work_set_spec m s d id :
  id ∈ game_data_work_set m s d
  ↔ ∃ g, g ∈ Games d ∧ game_id g = id ∧ season g = s ∧ in_scope m g
         ∧ started g ∧ game_data_finalized g = 0.
Proof.
  destruct m; simpl.
  - apply DU_game_state_update_spec.
  - rewrite OL_game_state_update_spec. split; intros (g & ? & ? & ? & ?); exists g.
    + auto.
    + destruct H2 as (_ & ?). auto.
Qed.

Lemma pre_game_work_set_spec m s d id :
  id ∈ pre_game_work_set m s d
  ↔ ∃ g, g ∈ Games d ∧ game_id g = id ∧ season g = s ∧ in_scope m g
         ∧ pre_game_data_finalized g = 0
         ∧ (started g ∨ status g = "Not Started" ∧ ¬ Exists (blocks s g) (Games d)).
Proof.
  destruct m; simpl.
  - apply DU_incomplete_pre_game_data_spec.
  - rewrite OL_incomplete_pre_game_data_spec. split; intros (g & ? & ? & ? & ?); exists g.
    + auto.
    + destruct H2 as (_ & ?). auto.
Qed.

Lemma prediction_work_set_spec m s predictor d id :
  id ∈ prediction_work_set m s predictor d
  ↔ ∃ g, g ∈ Games d ∧ game_id g = id ∧ season g = s ∧ in_scope m g
         ∧ pre_game_data_finalized g = 1
         ∧ ¬ has_prediction predictor (Predictions d) g.
Proof.
  destruct m; simpl.
  - apply DU_prediction_update_spec.
  - rewrite list_elem_of_fmap. split.
    + intros (r & -> & (g & Hg & <- & ? & ? & ?)%OL_prediction_update_spec).
      exists g. auto 10.
    + intros (g & Hg & <- & ? & _ & ? & ?). exists (mkRow (game_id g)).
      split; [done|]. apply OL_prediction_update_spec. exists g. auto.
Qed.

Lemma filter_filter_implied {A} (P Q : A → Prop)
    `{!∀ x, Decision (P x), !∀ x, Decision (Q x)} (l : list A) :
  (∀ x, P x → Q x) → filter P (filter Q l) = filter P l.
Proof.
  intros HPQ. rewrite list_filter_filter. apply list_filter_iff.
  intros x. split; [by intros [? _]|auto].
Qed.

Lemma NoDup_fmap_filter {A B} (f : A → B) (P : A → Prop) `{!∀ x, Decision (P x)}
    (l : list A) :
  NoDup (f <$> l) → NoDup (f <$> filter P l).
Proof.
  intros Hnd. eapply sublist_NoDup; [exact Hnd|].
  apply fmap_sublist, sublist_filter.
Qed.

#[global] Instance col0_inj : Inj (=) (=) col0.
Proof. intros [a] [b] Heq. simpl in Heq. by subst. Qed.

(** The outer join followed by the NULL check keeps one row for each game
    without a matching prediction, and none for the other games. *)
Lemma left_join_null_filter (Q : Game * option Prediction → Prop) (R : Game → Prop)
    `{!∀ r, Decision (Q r), !∀ g, Decision (R g)} predictor games preds :
  (∀ r, Q r ↔ R r.1 ∧ pred_game_id_is_null r) →
  filter Q (left_join_predictions predictor games preds)
  = (λ g, (g, None)) <$> filter (λ g, R g ∧ no_prediction predictor preds g) games.
Proof.
  intros HQ. unfold left_join_predictions.
  induction games as [|g games IH]; [done|].
  change ((g :: games) ≫= ?f) with (f g ++ (games ≫= f)).
  rewrite filter_app, IH. clear IH.
  destruct (filter (λ p, game_id g = pred_game_id p ∧ pred_predictor p = predictor)
              preds) as [|p ps] eqn:Hmatch.
  - destruct (decide (R g)) as [HR|HR].
    + rewrite (filter_cons_True _ g) by done.
      rewrite filter_cons_True by (apply HQ; done). done.
    + rewrite (filter_cons_False _ g) by (by intros [? _]).
      rewrite filter_cons_False by (by intros [? _]%HQ). done.
  - rewrite (filter_cons_False _ g)
      by (unfold no_prediction; rewrite Hmatch; by intros [_ ?]).
    replace (filter Q ((λ p0, (g, Some p0)) <$> p :: ps)) with
      (@nil (Game * option Prediction)); [done|].
    symmetry. generalize (p :: ps). intros l.
    induction l as [|x l IHl]; [done|]. simpl.
    rewrite filter_cons_False; [done|].
    intros [_ Hnull]%HQ. discriminate Hnull.
Qed.

Lemma game_data_work_set_filter m s d :
  game_data_work_set m s d
  = game_id <$> filter (λ g, season g = s ∧ in_scope m g ∧ started g
                             ∧ game_data_finalized g = 0) (Games d).
Proof.
  destruct m; simpl;
    [unfold DU.get_games_needing_game_state_update
    |unfold OL.get_games_needing_game_state_update];
    unfold select_game_id; simpl; rewrite <- list_fmap_compose; f_equal.
  apply list_filter_iff. intros g. simpl. split.
  - intros (? & ? & ?). auto.
  - intros (? & _ & ? & ?). auto.
Qed.

Lemma prediction_work_set_filter m s predictor d :
  prediction_work_set m s predictor d
  = game_id <$> filter (λ g, (season g = s ∧ in_scope m g
                              ∧ pre_game_data_finalized g = 1)
                             ∧ no_prediction predictor (Predictions d) g) (Games d).
Proof.
  destruct m; simpl;
    [unfold DU.get_games_for_prediction_update
    |unfold OL.get_games_for_prediction_update]; simpl.
  - rewrite (left_join_null_filter _
               (λ g, season g = s ∧ in_scope database_updater g
                     ∧ pre_game_data_finalized g = 1)).
    + by rewrite <- !list_fmap_compose.
    + intros r. simpl. split; [intros (? & ? & ? & ?)|intros ((? & ? & ?) & ?)]; auto.
  - rewrite (left_join_null_filter _
               (λ g, season g = s ∧ in_scope on_load g
                     ∧ pre_game_data_finalized g = 1)).
    + by rewrite <- !list_fmap_compose.
    + intros r. simpl. split; [intros (? & ? & ?)|intros ((? & _ & ?) & ?)]; auto.
Qed.

(** X3: no work set names a game twice.  The pre-game-data work set never
    does (its UNION removes duplicates); the game-data and the prediction
    work set do not when game identifiers are unique: the outer join of the
    prediction query does not multiply the games it keeps. *)
Theorem X3_work_sets_without_duplicates m s predictor d :
  NoDup (pre_game_work_set m s d)
  ∧ (games_primary_key (Games d) →
     NoDup (game_data_work_set m s d)
     ∧ NoDup (prediction_work_set m s predictor d)).
Proof.
  split.
  - destruct m; simpl;
      [unfold DU.get_games_with_incomplete_pre_game_data
      |unfold OL.get_games_with_incomplete_pre_game_data];
      simpl; apply (NoDup_fmap_2 col0); unfold sql_union;
      rewrite merge_sort_Permutation; apply NoDup_remove_dups.
  - intros Hpk. split.
    + rewrite game_data_work_set_filter. by apply NoDup_fmap_filter.
    + rewrite prediction_work_set_filter. by apply NoDup_fmap_filter.
Qed.

Lemma X3_work_sets_without_duplicates_witness :
  NoDup (pre_game_work_set database_updater "2023-2024" settled_week_db)
  ∧ NoDup (game_data_work_set database_updater "2023-2024" settled_week_db)
  ∧ NoDup (prediction_work_set database_updater "2023-2024" "Random" settled_week_db).
Proof.
  destruct (X3_work_sets_without_duplicates database_updater "2023-2024" "Random"
              settled_week_db) as [Hpre Hrest].
  split; [exact Hpre|]. apply Hrest. exact settled_week_primary_key.
Defined.

(** X4: whatever database_updater.py selects, on_load.py selects too, for
    each of the three work sets; a game that only on_load.py selects is a
    game of the season whose season_type is neither Regular Season nor Post
    Season. *)
Theorem X4_database_updater_selects_less s predictor d :
  game_data_work_set database_updater s d ⊆ game_data_work_set on_load s d
  ∧ pre_game_work_set database_updater s d ⊆ pre_game_work_set on_load s d
  ∧ prediction_work_set database_updater s predictor d
      ⊆ prediction_work_set on_load s predictor d
  ∧ ∀ id,
      (id ∈ game_data_work_set on_load s d
       ∧ id ∉ game_data_work_set database_updater s d)
      ∨ (id ∈ pre_game_work_set on_load s d
         ∧ id ∉ pre_game_work_set database_updater s d)
      ∨ (id ∈ prediction_work_set on_load s predictor d
         ∧ id ∉ prediction_work_set database_updater s predictor d) →
      ∃ g, g ∈ Games d ∧ game_id g = id ∧ season g = s ∧ ¬ season_type_in_scope g.
Proof.
  split; [|split; [|split]].
  - intros id (g & ? & ? & ? & _ & ?)%game_data_work_set_spec.
    apply game_data_work_set_spec. exists g. simpl. auto.
  - intros id (g & ? & ? & ? & _ & ?)%pre_game_work_set_spec.
    apply pre_game_work_set_spec. exists g. simpl. auto.
  - intros id (g & ? & ? & ? & _ & ?)%prediction_work_set_spec.
    apply prediction_work_set_spec. exists g. simpl. auto.
  - intros id [[Hol Hdu]|[[Hol Hdu]|[Hol Hdu]]].
    + apply game_data_work_set_spec in Hol as (g & Hg & Hid & Hs & _ & Hrest).
      exists g. do 3 (split; [done|]). intros Hscope. apply Hdu.
      apply game_data_work_set_spec. exists g. simpl. auto.
    + apply pre_game_work_set_spec in Hol as (g & Hg & Hid & Hs & _ & Hrest).
      exists g. do 3 (split; [done|]). intros Hscope. apply Hdu.
      apply pre_game_work_set_spec. exists g. simpl. auto.
    + apply prediction_work_set_spec in Hol as (g & Hg & Hid & Hs & _ & Hrest).
      exists g. do 3 (split; [done|]). intros Hscope. apply Hdu.
      apply prediction_work_set_spec. exists g. simpl. auto.
Qed.

Lemma X4_database_updater_selects_less_witness :
  ∃ g, g ∈ Games preseason_db ∧ game_id g = "0012300001"
       ∧ season g = "2023-2024" ∧ ¬ season_type_in_scope g.
Proof.
  destruct (X4_database_updater_selects_less "2023-2024" "Random" preseason_db)
    as (_ & _ & _ & Hout).
  apply Hout. left. split.
  - apply (bool_decide_unpack _). vm_compute. exact I.
  - apply (bool_decide_unpack _). vm_compute. exact I.
Defined.

(** ** One season at a time *)

Lemma blocked_in_season s g1 d :
  Exists (blocks s g1) (season_games s d) ↔ Exists (blocks s g1) (Games d).
Proof.
  unfold season_games. rewrite !Exists_exists. split.
  - intros (g2 & [_ Hg2]%list_elem_of_filter & Hb). eauto.
  - intros (g2 & Hg2 & Hb). exists g2. split; [|done].
    apply list_elem_of_filter. split; [apply Hb|done].
Qed.

Lemma select_game_id_season (P : Game → Prop) `{!∀ g, Decision (P g)} s d :
  (∀ g, P g → season g = s) →
  select_game_id P (season_games s d) = select_game_id P (Games d).
Proof.
  intros HP. unfold select_game_id, season_games. f_equal.
  by apply filter_filter_implied.
Qed.

(** The queries read the games of the queried season only. *)
Lemma work_sets_only_season m s predictor d :
  game_data_work_set m s (only_season s d) = game_data_work_set m s d
  ∧ pre_game_work_set m s (only_season s d) = pre_game_work_set m s d
  ∧ prediction_work_set m s predictor (only_season s d)
    = prediction_work_set m s predictor d.
Proof.
  split; [|split].
  - rewrite !game_data_work_set_filter. simpl. unfold season_games. f_equal.
    apply filter_filter_implied. by intros g [? _].
  - destruct m; simpl;
      [unfold DU.get_games_with_incomplete_pre_game_data
      |unfold OL.get_games_with_incomplete_pre_game_data]; simpl.
    + f_equal. unfold sql_union. f_equal. f_equal. f_equal.
      * apply select_game_id_season. by intros g [? _].
      * rewrite <- (select_game_id_season _ s d) by (by intros g [? _]).
        apply select_game_id_ext. intros g _.
        rewrite blocked_in_season. done.
    + f_equal. unfold sql_union. f_equal. f_equal. f_equal.
      * apply select_game_id_season. by intros g [? _].
      * rewrite <- (select_game_id_season _ s d) by (by intros g [? _]).
        apply select_game_id_ext. intros g _.
        rewrite blocked_in_season. done.
  - rewrite !prediction_work_set_filter. simpl. unfold season_games. f_equal.
    apply filter_filter_implied. by intros g [[? _] _].
Qed.

(** X5: the work sets of a season depend on the games of that season only
    (and, for the prediction work set, on the prediction store): two
    databases whose Games tables hold the same rows for the season give the
    same three work sets, whatever their games of other seasons. *)
Theorem X5_work_sets_of_one_season m s predictor d d' :
  season_games s d = season_games s d' →
  game_data_work_set m s d = game_data_work_set m s d'
  ∧ pre_game_work_set m s d = pre_game_work_set m s d'
  ∧ (Predictions d = Predictions d' →
     prediction_work_set m s predictor d = prediction_work_set m s predictor d').
Proof.
  intros Hsame.
  destruct (work_sets_only_season m s predictor d) as (Hg & Hp & Hq).
  destruct (work_sets_only_season m s predictor d') as (Hg' & Hp' & Hq').
  rewrite <- Hg, <- Hg', <- Hp, <- Hp', <- Hq, <- Hq'.
  unfold only_season. rewrite Hsame.
  split; [|split].
  - destruct m; reflexivity.
  - destruct m; reflexivity.
  - intros Hpreds. destruct m; simpl;
      [unfold DU.get_games_for_prediction_update
      |unfold OL.get_games_for_prediction_update]; simpl; by rewrite Hpreds.
Qed.

Lemma X5_work_sets_of_one_season_witness :
  game_data_work_set database_updater "2023-2024" opening_week_with_exhibition_db
  = game_data_work_set database_updater "2023-2024" opening_week_db
  ∧ pre_game_work_set database_updater "2023-2024" opening_week_with_exhibition_db
    = pre_game_work_set database_updater "2023-2024" opening_week_db
  ∧ prediction_work_set database_updater "2023-2024" "Random"
      opening_week_with_exhibition_db
    = prediction_work_set database_updater "2023-2024" "Random" opening_week_db.
Proof.
  destruct (X5_work_sets_of_one_season database_updater "2023-2024" "Random"
              opening_week_with_exhibition_db opening_week_db) as (Hg & Hp & Hq).
  - vm_compute. reflexivity.
  - split; [exact Hg|]. split; [exact Hp|]. apply Hq. reflexivity.
Defined.

(** ** The prediction store and the prediction work set *)

Lemma has_prediction_add predictor id predictor' d g :
  has_prediction predictor (Predictions (add_prediction id predictor' d)) g
  ↔ has_prediction predictor (Predictions d) g
    ∨ (id = game_id g ∧ predictor' = predictor).
Proof.
  unfold has_prediction, add_prediction. simpl. split.
  - intros (p & [Hp|Hp]%elem_of_app & Hid & Hpr).
    + left. eauto.
    + apply list_elem_of_singleton in Hp as ->. right. done.
  - intros [(p & Hp & Hid & Hpr)|[-> ->]].
    + exists p. split; [apply elem_of_app; by left|done].
    + exists (mkPrediction (game_id g) predictor).
      split; [apply elem_of_app; right; by apply list_elem_of_singleton|done].
Qed.

(** X9: storing a prediction for a game and a predictor takes exactly that
    game out of the prediction work set of that predictor: the other games
    stay selected, and the work set of any other predictor is as it was. *)
Theorem X9_prediction_closes_the_gap m s predictor id predictor' d id' :
  id' ∈ prediction_work_set m s predictor (add_prediction id predictor' d)
  ↔ id' ∈ prediction_work_set m s predictor d
    ∧ ¬ (id' = id ∧ predictor' = predictor).
Proof.
  rewrite !prediction_work_set_spec. split.
  - intros (g & Hg & Hid & Hs & Hscope & Hflag & Hno).
    rewrite has_prediction_add in Hno. split.
    + exists g. do 5 (split; [done|]). intros Hold. apply Hno. by left.
    + intros [-> ->]. apply Hno. right. done.
  - intros [(g & Hg & Hid & Hs & Hscope & Hflag & Hno) Hother].
    exists g. do 5 (split; [done|]). rewrite has_prediction_add.
    intros [Hold|[-> ->]]; [by apply Hno|]. by apply Hother.
Qed.

(** ** The pre-game-data work set against the game-data work set *)

(** X10: a Not Started game is in the pre-game-data work set only while no
    earlier game of one of its teams is waiting in the game-data work set
    of the season: prior states are not loaded for an upcoming game before
    the earlier games of both teams have their game states. *)
Theorem X10_upcoming_game_waits_for_game_data m m' s d G g2 :
  games_primary_key (Games d) →
  G ∈ Games d →
  status G = "Not Started" →
  game_id G ∈ pre_game_work_set m s d →
  g2 ∈ Games d →
  game_id g2 ∈ game_data_work_set m' s d →
  shares_team G g2 →
  ¬ text_lt (date_time_est g2) (date_time_est G).
Proof.
  intros Hpk HG Hstatus Hpre Hg2 Hdata Hshare Hearlier.
  apply pre_game_work_set_spec in Hpre as (g & Hg & Hid & _ & _ & _ & Hwhy).
  rewrite (primary_key_inj _ _ _ Hpk Hg HG Hid) in Hwhy.
  destruct Hwhy as [[Hst|Hst]|[_ Hfree]];
    [rewrite Hstatus in Hst; discriminate..|].
  apply game_data_work_set_spec in Hdata as (g' & Hg' & Hid' & Hs & _ & _ & Hopen).
  rewrite (primary_key_inj _ _ _ Hpk Hg' Hg2 Hid') in Hs, Hopen.
  apply Hfree, Exists_exists. exists g2. split; [done|].
  unfold blocks. auto.
Qed.

Lemma X10_upcoming_game_waits_for_game_data_witness :
  ¬ text_lt (date_time_est played_later_game) (date_time_est postponed_game).
Proof.
  apply (X10_upcoming_game_waits_for_game_data database_updater on_load
           "2023-2024" postponed_db postponed_game played_later_game).
  - unfold games_primary_key. apply (bool_decide_unpack _). vm_compute. exact I.
  - apply (bool_decide_unpack _). vm_compute. exact I.
  - reflexivity.
  - apply (bool_decide_unpack _). vm_compute. exact I.
  - apply (bool_decide_unpack _). vm_compute. exact I.
  - apply (bool_decide_unpack _). vm_compute. exact I.
  - unfold shares_team. simpl. auto.
Defined.

(** ** A run of the pre-game-data stage, in full *)

Lemma update_games_id d : update_games (fmap id) d = d.
Proof. destruct d. unfold update_games. simpl. by rewrite list_fmap_id. Qed.

Lemma write_all_db data d :
  write_all data d = update_games (fmap (update_row data)) d.
Proof.
  pose proof (write_all_games data d) as HG.
  pose proof (write_all_frame data d) as [HP HO].
  destruct (write_all data d). unfold update_games. simpl in *. congruence.
Qed.

Lemma finalize_row_update_row {Data} (psd : gmap string (States Data)) g :
  update_row (games_update_data psd) g = finalize_row psd g.
Proof. apply update_row_games_update_data. Qed.

Lemma write_all_finalize {Data} (psd : gmap string (States Data)) d :
  write_all (games_update_data psd) d = update_games (fmap (finalize_row psd)) d.
Proof.
  rewrite write_all_db. unfold update_games. f_equal.
  apply list_fmap_ext. intros i g _. apply finalize_row_update_row.
Qed.

Lemma games_update_data_length {Data} (psd : gmap string (States Data)) :
  length (games_update_data psd) = size psd.
Proof. unfold games_update_data. by rewrite length_fmap, length_map_to_list. Qed.

(** The two ways a run ends. *)
Lemma update_pre_game_data_result `{Environment} m s d :
  update_pre_game_data m s d =
  match storage_fault (before_write m s d) with
  | Some k =>
      if decide (k < size (loaded_prior_states m s d))%nat
      then (before_write m s d, Raised OperationalError)
      else (update_games (fmap (finalize_row (loaded_prior_states m s d)))
              (before_write m s d), Returned tt)
  | None =>
      (update_games (fmap (finalize_row (loaded_prior_states m s d)))
         (before_write m s d), Returned tt)
  end.
Proof.
  rewrite update_pre_game_data_unfold, batch_write_spec.
  rewrite games_update_data_length, write_all_finalize. done.
Qed.

Lemma finalize_row_same_other_columns {Data} (psd : gmap string (States Data)) g :
  same_other_columns g (finalize_row psd g).
Proof. unfold finalize_row. destruct (psd !! game_id g); repeat split. Qed.

(** The rows after a run, whichever way it ends. *)
Lemma update_pre_game_data_rows `{Environment} m s d :
  ∃ step : Game → Game,
    Games (update_pre_game_data m s d).1 = step <$> Games (before_write m s d)
    ∧ ∀ g, same_other_columns g (step g)
           ∧ (step g = g ∨ step g = finalize_row (loaded_prior_states m s d) g).
Proof.
  rewrite update_pre_game_data_result.
  destruct (storage_fault _) as [k|]; [destruct (decide _)|]; simpl.
  - exists id. split; [by rewrite list_fmap_id|]. intros g. split; [repeat split|auto].
  - eexists. split; [done|]. intros g.
    split; [apply finalize_row_same_other_columns|auto].
  - eexists. split; [done|]. intros g.
    split; [apply finalize_row_same_other_columns|auto].
Qed.

(** X6: a run of update_pre_game_data that meets no storage failure
    returns, and leaves the database that save_feature_sets left with
    exactly this change: every row whose identifier is a key of the loaded
    mapping has pre_game_data_finalized set to
    int(not missing home and not missing away) of its entry. *)
Theorem X6_pre_game_stage_result `{Environment} m s d :
  (∀ k, storage_fault (before_write m s d) = Some k →
        (size (loaded_prior_states m s d) ≤ k)%nat) →
  update_pre_game_data m s d
  = (update_games (fmap (finalize_row (loaded_prior_states m s d)))
       (before_write m s d),
     Returned tt).
Proof.
  intros Hsound. rewrite update_pre_game_data_result.
  destruct (storage_fault _) as [k|]; [|done].
  rewrite decide_False; [done|]. specialize (Hsound k eq_refl). lia.
Qed.

Lemma X6_pre_game_stage_result_witness :
  @update_pre_game_data demo_environment on_load "2023-2024" settled_week_db
  = (update_games
       (fmap (finalize_row (@loaded_prior_states demo_environment on_load
                              "2023-2024" settled_week_db)))
       (@before_write demo_environment on_load "2023-2024" settled_week_db),
     Returned tt).
Proof.
  apply (@X6_pre_game_stage_result demo_environment on_load "2023-2024"
           settled_week_db).
  intros k Hk. discriminate Hk.
Defined.

(** X7: when the storage fails before the last pair of the batch, the run
    of update_pre_game_data raises and no flag is written; the database is
    left as save_feature_sets left it, so the feature sets of the run are
    saved while pre_game_data_finalized still has its old values. *)
Theorem X7_pre_game_stage_storage_failure `{Environment} m s d k :
  storage_fault (before_write m s d) = Some k →
  (k < size (loaded_prior_states m s d))%nat →
  update_pre_game_data m s d = (before_write m s d, Raised OperationalError).
Proof.
  intros Hfault Hk. rewrite update_pre_game_data_result, Hfault.
  by rewrite decide_True.
Qed.

Lemma X7_pre_game_stage_storage_failure_witness :
  @update_pre_game_data faulty_environment on_load "2023-2024" settled_week_db
  = (@before_write faulty_environment on_load "2023-2024" settled_week_db,
     Raised OperationalError).
Proof.
  apply (@X7_pre_game_stage_storage_failure faulty_environment on_load
           "2023-2024" settled_week_db 1%nat).
  - reflexivity.
  - vm_compute. lia.
Defined.

(** X8: with nothing loaded, the batch write of update_pre_game_data
    changes nothing: the database after the run is the one
    save_feature_sets left, row for row and table for table. *)
Theorem X8_pre_game_stage_empty_mapping `{Environment} m s d :
  loaded_prior_states m s d = ∅ →
  (update_pre_game_data m s d).1 = before_write m s d.
Proof.
  intros Hempty. rewrite update_pre_game_data_result, Hempty, map_size_empty.
  assert (update_games (fmap (finalize_row (∅ : gmap string (States PriorStateData))))
            (before_write m s d) = before_write m s d) as ->.
  { rewrite <- (update_games_id (before_write m s d)) at 2.
    unfold update_games. f_equal. }
  destruct (storage_fault _) as [k|]; [|done].
  destruct (decide _); done.
Qed.

Lemma X8_pre_game_stage_empty_mapping_witness :
  (@update_pre_game_data faulty_environment database_updater "2023-2024"
     finalized_preseason_db).1
  = @before_write faulty_environment database_updater "2023-2024"
      finalized_preseason_db.
Proof.
  apply (@X8_pre_game_stage_empty_mapping faulty_environment database_updater
           "2023-2024" finalized_preseason_db).
  vm_compute. reflexivity.
Defined.

(** ** What a run of the pre-game-data stage keeps *)

Lemma fmap_filter_step {B} (f : Game → B) (P : Game → Prop)
    `{!∀ g, Decision (P g)} (step : Game → Game) (l : list Game) :
  (∀ g, f (step g) = f g) → (∀ g, P (step g) ↔ P g) →
  f <$> filter P (step <$> l) = f <$> filter P l.
Proof.
  intros Hf HP. induction l as [|g l IH]; [done|]. rewrite fmap_cons.
  destruct (decide (P g)) as [Hg|Hg].
  - rewrite !filter_cons_True by (done || by apply HP).
    by rewrite !fmap_cons, Hf, IH.
  - rewrite !filter_cons_False by (done || by rewrite HP). done.
Qed.

Lemma blocks_same_other_columns s g1 g1' g2 g2' :
  same_other_columns g1 g1' → same_other_columns g2 g2' →
  blocks s g1' g2' ↔ blocks s g1 g2.
Proof.
  intros (_ & Hd1 & Hh1 & Ha1 & _) (_ & Hd2 & Hh2 & Ha2 & _ & Hs2 & _ & Hf2).
  unfold blocks. rewrite Hd1, Hh1, Ha1, Hd2, Hh2, Ha2, Hs2, Hf2. done.
Qed.

Lemma blocked_after_step s (step : Game → Game) g l :
  (∀ g, same_other_columns g (step g)) →
  Exists (blocks s (step g)) (step <$> l) ↔ Exists (blocks s g) l.
Proof.
  intros Hstep. rewrite !Exists_exists. split.
  - intros (g2' & (g2 & -> & Hg2)%list_elem_of_fmap & Hb). exists g2. split; [done|].
    by apply (blocks_same_other_columns s g (step g) g2 (step g2)).
  - intros (g2 & Hg2 & Hb). exists (step g2).
    split; [by apply list_elem_of_fmap_2|].
    by apply (blocks_same_other_columns s g (step g) g2 (step g2)).
Qed.

(** X11: a run of update_pre_game_data keeps the Games table well formed:
    the rows keep their identifiers in their order, so the primary key
    holds after the run when it held before, and a table whose
    pre_game_data_finalized flags are all 0 or 1 stays such a table.
    save_feature_sets is assumed to leave the Games table alone. *)
Theorem X11_pre_game_stage_keeps_table_well_formed `{Environment} m s d :
  (∀ fs d0, Games (save_feature_sets fs d0) = Games d0) →
  game_id <$> Games (update_pre_game_data m s d).1 = game_id <$> Games d
  ∧ (games_primary_key (Games d) →
     games_primary_key (Games (update_pre_game_data m s d).1))
  ∧ (Forall boolean_flag (Games d) →
     Forall boolean_flag (Games (update_pre_game_data m s d).1)).
Proof.
  intros Hframe.
  destruct (update_pre_game_data_rows m s d) as (step & Hrows & Hstep).
  unfold before_write in Hrows. rewrite Hframe in Hrows. rewrite Hrows.
  assert (game_id <$> (step <$> Games d) = game_id <$> Games d) as Hids.
  { rewrite <- list_fmap_compose. apply list_fmap_ext. intros i g _.
    simpl. apply Hstep. }
  split; [done|]. split.
  - unfold games_primary_key. by rewrite Hids.
  - rewrite Forall_fmap. intros Hflags. eapply Forall_impl; [exact Hflags|].
    intros g Hg. simpl.
    destruct (Hstep g) as [_ [->| ->]]; [done|].
    unfold finalize_row. destruct (_ !! game_id g) as [st|]; [|done].
    unfold boolean_flag. simpl.
    destruct (missing_prior_states st) as [[] []]; vm_compute; auto.
Qed.

Lemma X11_pre_game_stage_keeps_table_well_formed_witness :
  game_id <$> Games (@update_pre_game_data demo_environment database_updater
                       "2023-2024" settled_week_db).1
  = game_id <$> Games settled_week_db
  ∧ games_primary_key
      (Games (@update_pre_game_data demo_environment database_updater
                "2023-2024" settled_week_db).1)
  ∧ Forall boolean_flag
      (Games (@update_pre_game_data demo_environment database_updater
                "2023-2024" settled_week_db).1).
Proof.
  destruct (@X11_pre_game_stage_keeps_table_well_formed demo_environment
              database_updater "2023-2024" settled_week_db (λ fs d0, eq_refl))
    as (Hids & Hpk & Hflags).
  split; [exact Hids|]. split.
  - apply Hpk. exact settled_week_primary_key.
  - apply Hflags, Forall_forall. clear. simpl. intros g Hg.
    repeat (apply elem_of_cons in Hg as [->|Hg]; [vm_compute; auto|]).
    apply elem_of_nil in Hg. destruct Hg.
Defined.

(** X12: a run of update_pre_game_data gives the game-data stage nothing
    to redo and takes nothing from it: the game-data work set of every
    season is the same before and after the run, in either module.
    save_feature_sets is assumed to leave the Games table alone. *)
Theorem X12_pre_game_stage_keeps_game_data_work_set `{Environment} m s d m' s' :
  (∀ fs d0, Games (save_feature_sets fs d0) = Games d0) →
  game_data_work_set m' s' (update_pre_game_data m s d).1
  = game_data_work_set m' s' d.
Proof.
  intros Hframe. rewrite !game_data_work_set_filter.
  destruct (update_pre_game_data_rows m s d) as (step & Hrows & Hstep).
  unfold before_write in Hrows. rewrite Hframe in Hrows. rewrite Hrows.
  apply fmap_filter_step.
  - intros g. apply Hstep.
  - intros g. destruct (Hstep g) as [(_ & _ & _ & _ & Hst & Hs & Ht & Hf) _].
    unfold started, in_scope, season_type_in_scope. rewrite Hst, Hs, Hf.
    destruct m'; rewrite ?Ht; done.
Qed.

Lemma X12_pre_game_stage_keeps_game_data_work_set_witness :
  game_data_work_set on_load "2023-2024"
    (@update_pre_game_data demo_environment database_updater "2023-2024"
       opening_week_db).1
  = game_data_work_set on_load "2023-2024" opening_week_db.
Proof.
  apply (@X12_pre_game_stage_keeps_game_data_work_set demo_environment
           database_updater "2023-2024" opening_week_db on_load "2023-2024").
  intros fs d0. reflexivity.
Defined.

(** X13: a run of update_pre_game_data never adds to its own work set.
    When every key of the loaded mapping is an identifier of the work set,
    the work set of the season after the run is contained in the one
    before it, and after a run that returns no game whose entry has no
    missing prior state is in it.  save_feature_sets is assumed to leave
    the Games table alone. *)
Theorem X13_pre_game_work_set_shrinks `{Environment} m s d :
  (∀ fs d0, Games (save_feature_sets fs d0) = Games d0) →
  (∀ id st, loaded_prior_states m s d !! id = Some st → id ∈ pre_game_work_set m s d) →
  pre_game_work_set m s (update_pre_game_data m s d).1 ⊆ pre_game_work_set m s d
  ∧ ((update_pre_game_data m s d).2 = Returned tt →
     ∀ id st, loaded_prior_states m s d !! id = Some st →
              readiness (missing_prior_states st) = 1 →
              id ∉ pre_game_work_set m s (update_pre_game_data m s d).1).
Proof.
  intros Hframe Hkeys. split.
  - intros id (g' & Hg' & Hid & Hs & Hscope & Hflag & Hwhy)%pre_game_work_set_spec.
    destruct (update_pre_game_data_rows m s d) as (step & Hrows & Hstep).
    unfold before_write in Hrows. rewrite Hframe in Hrows. rewrite Hrows in Hg', Hwhy.
    apply list_elem_of_fmap in Hg' as (g & -> & Hg).
    destruct (Hstep g) as [Hsame Hcase].
    rewrite (blocked_after_step s step g (Games d)) in Hwhy
      by (intros g0; apply Hstep).
    destruct Hsame as (Hgid & _ & _ & _ & Hst & Hse & Hty & _).
    assert (finalize_row (loaded_prior_states m s d) g = g
            ∨ id ∈ pre_game_work_set m s d) as [Hkeep|Hold]; [|try done..].
    { unfold finalize_row. destruct (_ !! game_id g) as [st|] eqn:Hst'; [|by left].
      right. rewrite <- Hid, Hgid. by apply (Hkeys _ st). }
    assert (step g = g) as Hsg by (destruct Hcase as [?|?]; congruence).
    rewrite Hsg in *. apply pre_game_work_set_spec. exists g. auto 10.
  - intros Hret id st Hst Hready
      (g' & Hg' & Hid & _ & _ & Hflag & _)%pre_game_work_set_spec.
    revert Hret Hg'. rewrite update_pre_game_data_result.
    assert (∀ g0 : Game,
              g0 ∈ Games (update_games
                            (fmap (finalize_row (loaded_prior_states m s d)))
                            (before_write m s d)) → game_id g0 = id →
              pre_game_data_finalized g0 = 1) as Hdone.
    { intros g0 (g & -> & _)%list_elem_of_fmap Hg0.
      rewrite <- Hg0 in Hst. unfold finalize_row in *.
      destruct (_ !! game_id g) as [st0|] eqn:Hst0; simpl in *.
      - rewrite Hst0 in Hst. by injection Hst as ->.
      - by rewrite Hst0 in Hst. }
    destruct (storage_fault _) as [k|]; [destruct (decide _)|]; simpl;
      intros Hret Hg'; try discriminate Hret;
      apply Hdone in Hg'; try done; lia.
Qed.

Lemma X13_pre_game_work_set_shrinks_witness :
  pre_game_work_set database_updater "2023-2024"
    (@update_pre_game_data demo_environment database_updater "2023-2024"
       settled_week_db).1
    ⊆ pre_game_work_set database_updater "2023-2024" settled_week_db
  ∧ "0022300075"
      ∉ pre_game_work_set database_updater "2023-2024"
          (@update_pre_game_data demo_environment database_updater "2023-2024"
             settled_week_db).1.
Proof.
  destruct (@X13_pre_game_work_set_shrinks demo_environment database_updater
              "2023-2024" settled_week_db (λ fs d0, eq_refl)) as [Hsub Hgone].
  - intros id st Hst. unfold loaded_prior_states in Hst. simpl in Hst.
    apply lookup_insert_Some in Hst as [[<- _]|[_ Hst]];
      [apply (bool_decide_unpack _); vm_compute; exact I|].
    apply lookup_insert_Some in Hst as [[<- _]|[_ Hst]];
      [apply (bool_decide_unpack _); vm_compute; exact I|].
    rewrite lookup_empty in Hst. discriminate Hst.
  - split; [exact Hsub|].
    apply (Hgone eq_refl "0022300075" (mkStates [] [] (mkMissing false false)));
      reflexivity.
Defined.

(** X14: writing the flags of a mapping a second time changes nothing: the
    batch write applied to its own result gives that result again. *)
Theorem X14_batch_write_idempotent {Data} (psd : gmap string (States Data))
    (d : Database) :
  with_connection (executemany None 0 (games_update_data psd);; commit)
    (with_connection (executemany None 0 (games_update_data psd);; commit) d).1
  = with_connection (executemany None 0 (games_update_data psd);; commit) d.
Proof.
  rewrite !batch_write_spec. simpl. f_equal.
  rewrite !write_all_finalize. unfold update_games. simpl. f_equal.
  rewrite <- list_fmap_compose. apply list_fmap_ext. intros i g _. simpl.
  unfold finalize_row at 1.
  assert (game_id (finalize_row psd g) = game_id g) as ->
    by apply finalize_row_same_other_columns.
  unfold finalize_row. destruct (psd !! game_id g); done.
Qed.

(** ** Settling games *)

Lemma Forall2_elem_of_l {A B} (R : A → B → Prop) l l' x :
  Forall2 R l l' → x ∈ l → ∃ x', x' ∈ l' ∧ R x x'.
Proof.
  induction 1 as [|a b l l' Hab _ IH]; [by intros ?%elem_of_nil|].
  intros [->|Hx]%elem_of_cons.
  - exists b. split; [left|done].
  - destruct (IH Hx) as (x' & Hx' & HR). exists x'. split; [by right|done].
Qed.

Lemma Forall2_elem_of_r {A B} (R : A → B → Prop) l l' x' :
  Forall2 R l l' → x' ∈ l' → ∃ x, x ∈ l ∧ R x x'.
Proof.
  induction 1 as [|a b l l' Hab _ IH]; [by intros ?%elem_of_nil|].
  intros [->|Hx]%elem_of_cons.
  - exists a. split; [left|done].
  - destruct (IH Hx) as (x & Hx' & HR). exists x. split; [by right|done].
Qed.

(** X15: setting game_data_finalized of games, with nothing else changed,
    never takes a game out of the pre-game-data work set and never adds a
    game to the game-data work set: an upcoming game that was free of
    unsettled earlier games stays free of them. *)
Theorem X15_settling_games_is_monotone m s d d' :
  Forall2 settles (Games d) (Games d') →
  pre_game_work_set m s d ⊆ pre_game_work_set m s d'
  ∧ game_data_work_set m s d' ⊆ game_data_work_set m s d.
Proof.
  intros Hsettle. split.
  - intros id (g & Hg & Hid & Hs & Hscope & Hflag & Hwhy)%pre_game_work_set_spec.
    destruct (Forall2_elem_of_l _ _ _ _ Hsettle Hg)
      as (g' & Hg' & Hgid & Hd & Hh & Ha & Hst & Hse & Hty & Hpf & _).
    apply pre_game_work_set_spec. exists g'.
    split; [done|]. split; [congruence|]. split; [congruence|].
    split; [destruct m; simpl in *; unfold season_type_in_scope in *;
            rewrite ?Hty; done|].
    split; [congruence|].
    destruct Hwhy as [Hstarted|[Hns Hfree]].
    + left. unfold started in *. by rewrite Hst.
    + right. split; [congruence|]. intros (g2' & Hg2' & Hb)%Exists_exists.
      destruct (Forall2_elem_of_r _ _ _ _ Hsettle Hg2')
        as (g2 & Hg2 & _ & Hd2 & Hh2 & Ha2 & _ & Hse2 & _ & _ & Hopen).
      apply Hfree, Exists_exists. exists g2. split; [done|].
      destruct Hb as (Hbs & Hlt & Hteams & Hzero).
      unfold blocks. rewrite Hd, Hh, Ha, Hd2, Hh2, Ha2, Hse2 in *. auto.
  - intros id (g' & Hg' & Hid & Hs & Hscope & Hstarted & Hzero)%game_data_work_set_spec.
    destruct (Forall2_elem_of_r _ _ _ _ Hsettle Hg')
      as (g & Hg & Hgid & _ & _ & _ & Hst & Hse & Hty & _ & Hopen).
    apply game_data_work_set_spec. exists g.
    split; [done|]. split; [congruence|]. split; [congruence|].
    split; [destruct m; simpl in *; unfold season_type_in_scope in *;
            rewrite <- ?Hty; done|].
    split; [unfold started in *; by rewrite <- Hst|auto].
Qed.

Lemma X15_settling_games_is_monotone_witness :
  pre_game_work_set database_updater "2023-2024" opening_week_db
    ⊆ pre_game_work_set database_updater "2023-2024" settled_week_db
  ∧ game_data_work_set database_updater "2023-2024" settled_week_db
    ⊆ game_data_work_set database_updater "2023-2024" opening_week_db.
Proof.
  apply (X15_settling_games_is_monotone database_updater "2023-2024"
           opening_week_db settled_week_db).
  simpl.
  constructor; [|constructor; [|constructor; [|constructor]]];
    unfold settles; simpl; do 8 (split; [reflexivity|]); intros _; reflexivity.
Defined.

(** The second game of the example is the game that settling the first one
    brings into the work set. *)
Example settling_frees_second_game :
  ("0022300075" ∉ pre_game_work_set database_updater "2023-2024" opening_week_db)
  ∧ ("0022300075" ∈ pre_game_work_set database_updater "2023-2024" settled_week_db).
Proof.
  split; apply (bool_decide_unpack _); vm_compute; exact I.
Qed.

(** ** An exception in the game-data stage *)

(** X16: when the schedule sync has returned and get_pbp then returns a
    log for a game that lookup_basic_game_info has no entry for,
    update_database raises the KeyError of update_game_data: the schedule
    is synced and the logs are saved, and neither update_pre_game_data nor
    the prediction stage is called, whatever the predictor argument. *)
Theorem X16_key_error_ends_the_run `{Environment} m s predictor r d1 :
  update_schedule s (db r) = (d1, Returned tt) →
  (∃ id, is_Some (fetched_pbp m s d1 !! id)
         ∧ fetched_basic_game_info m s d1 !! id = None) →
  ∃ id,
    fetched_basic_game_info m s d1 !! id = None
    ∧ update_database m s predictor r
      = (mkRun (save_pbp (fetched_pbp m s d1) d1)
               (calls r ++ [Call_update_schedule s; Call_update_game_data s]),
         Raised (KeyError id)).
Proof.
  intros Hschedule (id & [log Hlog] & Hnone).
  destruct (loop_raises (fetched_basic_game_info m s d1)
              (map_to_list (fetched_pbp m s d1)) ∅ (save_pbp (fetched_pbp m s d1) d1))
    as ([k v] & _ & Hk & Hrun).
  { exists (id, log). split; [by apply elem_of_map_to_list|done]. }
  exists k. split; [done|].
  assert (update_game_data m s d1
          = (save_pbp (fetched_pbp m s d1) d1, Raised (KeyError k))) as Hstage.
  { rewrite update_game_data_unfold. simpl in Hrun. by rewrite Hrun. }
  destruct m; simpl in Hstage |- *;
    [unfold DU.update_database | unfold OL.update_database];
    unfold mbind at 1 2 3, M_bind at 1 2 3, call at 1 2; simpl;
    rewrite Hschedule; simpl; rewrite Hstage; simpl;
    by rewrite <- (assoc_L (++)).
Qed.

Lemma X16_key_error_ends_the_run_witness :
  ∃ id,
    @fetched_basic_game_info forgetful_environment database_updater "2023-2024"
      opening_week_db !! id = None
    ∧ @update_database forgetful_environment database_updater "2023-2024"
        (Some "Random") (mkRun opening_week_db [])
      = (mkRun (@save_pbp forgetful_environment
                  (@fetched_pbp forgetful_environment database_updater "2023-2024"
                     opening_week_db)
                  opening_week_db)
               ([] ++ [Call_update_schedule "2023-2024";
                       Call_update_game_data "2023-2024"]),
         Raised (KeyError id)).
Proof.
  apply (@X16_key_error_ends_the_run forgetful_environment database_updater
           "2023-2024" (Some "Random") (mkRun opening_week_db []) opening_week_db).
  - reflexivity.
  - exists "0022300061". split; [vm_compute; eauto|reflexivity].
Defined.
